(** * finance-tracker: statement import, ledger merge and rule application

    A shallow embedding of the three scripts of the repository

      - [scripts/import_itau_ofx.py]   (module [Itau])
      - [scripts/import_nubank_ofx.py] (module [Nubank])
      - [scripts/apply_rules.py]       (module [Rules])

    The scripts are pandas programs.  A DataFrame is modelled as its list of
    column names and its list of rows, a row being a finite map from column
    name to cell value; cells are dynamically typed Python values.  What the
    scripts get from libraries and cannot be written down here (regular
    expression search for an arbitrary pattern, the 64-bit hash of pandas,
    the parsing and printing of floats and of dates, the default sort of
    [sort_values]) is a field of the class [Library]. *)

From Stdlib Require Import ZArith Ascii String.
From Corelib Require Import PrimFloat.
From stdpp Require Import gmap strings list pretty sorting.

Local Open Scope string_scope.
Local Open Scope list_scope.
Local Open Scope Z_scope.

(** * Python strings

    A [str] is a [string]: the statement files are decoded as latin-1, one
    character per byte. *)

Module PyStr.

(** [str.isspace] on the code points below 256. *)
Definition is_space (c : ascii) : bool :=
  let n := nat_of_ascii c in
  ((9 <=? n)%nat && (n <=? 13)%nat) || ((28 <=? n)%nat && (n <=? 32)%nat)
  || (n =? 133)%nat || (n =? 160)%nat.

Fixpoint lstrip (s : string) : string :=
  match s with
  | String c s' => if is_space c then lstrip s' else s
  | EmptyString => EmptyString
  end.

(** [rstrip] walks the string once: a run of blanks is dropped when nothing
    but blanks follows it. *)
Fixpoint rstrip (s : string) : string :=
  match s with
  | String c s' =>
      match rstrip s' with
      | EmptyString => if is_space c then EmptyString else String c EmptyString
      | t => String c t
      end
  | EmptyString => EmptyString
  end.

(** [str.strip()] *)
Definition strip (s : string) : string := lstrip (rstrip s).

(** [str.lower()] on the code points below 256: the ASCII capitals and the
    latin-1 capitals (192..222 but the multiplication sign 215). *)
Definition lower_char (c : ascii) : ascii :=
  let n := nat_of_ascii c in
  if ((65 <=? n)%nat && (n <=? 90)%nat)
     || ((192 <=? n)%nat && (n <=? 222)%nat && negb (n =? 215)%nat)
  then ascii_of_nat (n + 32) else c.

Fixpoint lower (s : string) : string :=
  match s with
  | String c s' => String (lower_char c) (lower s')
  | EmptyString => EmptyString
  end.

Definition is_digit (c : ascii) : bool :=
  let n := nat_of_ascii c in (48 <=? n)%nat && (n <=? 57)%nat.

Fixpoint all_digits (s : string) : bool :=
  match s with
  | String c s' => is_digit c && all_digits s'
  | EmptyString => true
  end.

(** Every character of the string passes the test. *)
Fixpoint all_chars (p : ascii → bool) (s : string) : bool :=
  match s with
  | String c s' => p c && all_chars p s'
  | EmptyString => true
  end.

Definition eqb_ci (a b : ascii) : bool := Ascii.eqb (lower_char a) (lower_char b).

(** [prefix_ci p s]: what follows [p] in [s] when [s] starts with [p], letters
    compared without case (the [re.I] flag). *)
Fixpoint prefix_ci (p s : string) : option string :=
  match p, s with
  | EmptyString, _ => Some s
  | String a p', String b s' => if eqb_ci a b then prefix_ci p' s' else None
  | String _ _, EmptyString => None
  end.

(** [split_ci p s]: the text before the first occurrence of [p] in [s] and
    the text after it. *)
Fixpoint split_ci (p s : string) : option (string * string) :=
  match prefix_ci p s with
  | Some rest => Some (EmptyString, rest)
  | None =>
      match s with
      | String c s' =>
          match split_ci p s' with
          | Some (before, after) => Some (String c before, after)
          | None => None
          end
      | EmptyString => None
      end
  end.

(** Case-insensitive substring test: what [re.search] does for a pattern
    that holds no metacharacter. *)
Definition contains_ci (p s : string) : bool :=
  match split_ci p s with Some _ => true | None => false end.

(** [p in s] *)
Fixpoint prefix (p s : string) : bool :=
  match p, s with
  | EmptyString, _ => true
  | String a p', String b s' => Ascii.eqb a b && prefix p' s'
  | String _ _, EmptyString => false
  end.

Fixpoint contains_cs (p s : string) : bool :=
  prefix p s
  || match s with
     | String _ s' => contains_cs p s'
     | EmptyString => false
     end.

(** Decimal digits of a string read as a natural number. *)
Fixpoint digits_value (acc : N) (s : string) : N :=
  match s with
  | String c s' => digits_value (10 * acc + N.of_nat (nat_of_ascii c - 48))%N s'
  | EmptyString => acc
  end.

End PyStr.

(** * Python values, exceptions and the library interface *)

(** A cell of a DataFrame, or any Python value the scripts handle.  The four
    missing values of pandas are kept apart because [str] tells them apart. *)
Inductive pyval : Type :=
  | VStr (s : string)      (* str *)
  | VInt (z : Z)           (* int, numpy integers *)
  | VFloat (f : float)     (* a float that is not NaN *)
  | VTime (t : string)     (* a Timestamp, named by its printed form *)
  | VRegex (p : string)    (* re.compile(p, re.I) *)
  | VNaN                   (* float('nan') *)
  | VNaT                   (* pd.NaT *)
  | VNA                    (* pd.NA *)
  | VNone.                 (* None *)

(** The exceptions the scripts raise or let through. *)
Inductive exn : Type :=
  | ValueError (msg : string)
  | KeyError (key : string)
  | AttributeError (what : string)
  | ReError (pattern : string)
  | FileNotFoundError (path : string).

Inductive result (A : Type) : Type :=
  | Ok (a : A)
  | Raise (e : exn).
Arguments Ok {A} a.
Arguments Raise {A} e.

Definition rbind {A B} (x : result A) (k : A → result B) : result B :=
  match x with Ok a => k a | Raise e => Raise e end.

Notation "'letR' x := y 'in' z" := (rbind y (λ x, z))
  (at level 10, x name, y at level 100, z at level 200, only parsing).

Abbreviation Row := (gmap string pyval).

(** [f] on every element of a list in turn; the first error ends it. *)
Fixpoint rmap {A B} (f : A → result B) (xs : list A) : result (list B) :=
  match xs with
  | [] => Ok []
  | x :: xs' => letR y := f x in letR ys := rmap f xs' in Ok (y :: ys)
  end.

(** What [pd.to_numeric(., errors="coerce")] makes of a cell, seen as the
    integer the cast [astype(int)] then gives. *)
Inductive numeric : Type :=
  | Num (z : Z)     (* a finite number; [z] is what the cast makes of it *)
  | Coerced         (* not a number: NaN *)
  | NonFinite.      (* an infinity, which the cast refuses *)

(** What the scripts take from [re], [pandas] and [float]. *)
Class Library : Type := {
  (** [re.compile(p, re.I)] succeeds *)
  re_compiles : string → bool;
  (** [bool(re.compile(p, re.I).search(x))] *)
  re_search : string → string → bool;
  (** [pd.util.hash_pandas_object] on one string *)
  hash_pandas_object : string → Z;
  (** [float(s)]; [None] when it raises [ValueError] *)
  py_float : string → option float;
  (** [str(f)] of a float *)
  float_str : float → string;
  (** [int(f)] of a float, as [astype(int)] casts it *)
  float_to_int : float → Z;
  (** [pd.to_numeric(., errors="coerce")] then [astype(int)] on a text cell
      of a column that [read_csv] did not type as integers *)
  str_to_numeric : string → numeric;
  (** [pd.to_datetime(s, errors="coerce")]: the printed form of the
      Timestamp, [None] for NaT *)
  to_datetime : string → option string;
  (** [DataFrame.sort_values(column)] with the default [kind] *)
  sort_values : string → list Row → list Row;
}.

(** [pd.isna] *)
Definition isna (v : pyval) : bool :=
  match v with
  | VNaN | VNaT | VNA | VNone => true
  | _ => false
  end.

Section PythonValues.
Context `{Library}.

(** The builtin [str(v)]. *)
Definition py_str (v : pyval) : string :=
  match v with
  | VStr s => s
  | VInt z => pretty z
  | VFloat f => float_str f
  | VTime t => t
  | VRegex p => "re.compile('" +:+ p +:+ "', re.IGNORECASE)"
  | VNaN => "nan"
  | VNaT => "NaT"
  | VNA => "<NA>"
  | VNone => "None"
  end.

(** [Series.astype(str)] on one cell: [str] of the value. *)
Definition astype_str (v : pyval) : string := py_str v.

(** What [to_csv] writes for a cell: missing values are written empty. *)
Definition csv_text (v : pyval) : string :=
  if isna v then "" else py_str v.

End PythonValues.

(** * DataFrames *)

Record DataFrame : Type := mkDF {
  columns : list string;
  rows : list Row;
}.

(** The cell of a row under a column; a row that lacks the column reads as
    NaN, as a reindexed frame does. *)
Definition cell (c : string) (r : Row) : pyval := default VNaN (r !! c).

Definition str_cell (c : string) (r : gmap string string) : string :=
  default "" (r !! c).

(** [c in df.columns] *)
Definition has_column (c : string) (df : DataFrame) : bool :=
  bool_decide (c ∈ columns df).

(** [df[c]] as the list of its values; [KeyError] when the column is absent. *)
Definition getitem (c : string) (df : DataFrame) : result (list pyval) :=
  if has_column c df then Ok (cell c <$> rows df) else Raise (KeyError c).

Definition add_column (c : string) (cols : list string) : list string :=
  if bool_decide (c ∈ cols) then cols else cols ++ [c].

(** [df[c] = v] for a scalar [v]. *)
Definition setitem_scalar (c : string) (v : pyval) (df : DataFrame) : DataFrame :=
  {| columns := add_column c (columns df);
     rows := (λ r, <[c := v]> r) <$> rows df |}.

(** [df[c] = df.apply(f)]: a column computed row by row. *)
Definition setitem_rowwise (c : string) (f : Row → pyval) (df : DataFrame) : DataFrame :=
  {| columns := add_column c (columns df);
     rows := (λ r, <[c := f r]> r) <$> rows df |}.

(** [df.loc[m, c] = v] for a boolean mask [m] and a scalar [v].  When the
    column is new it is created with NaN in the rows the mask leaves out;
    pandas refuses that on a frame with no row. *)
Definition loc_setitem (m : list bool) (c : string) (v : pyval) (df : DataFrame)
  : result DataFrame :=
  if has_column c df then
    Ok {| columns := columns df;
          rows := zip_with (λ (b : bool) r, if b then <[c := v]> r else r) m (rows df) |}
  else
    match rows df with
    | [] => Raise (ValueError "cannot set a frame with no defined index and a scalar")
    | _ => Ok {| columns := columns df ++ [c];
                 rows := zip_with (λ (b : bool) r, <[c := if b then v else VNaN]> r)
                           m (rows df) |}
    end.

(** [df.dropna(subset=cs)] *)
Definition dropna (cs : list string) (df : DataFrame) : DataFrame :=
  {| columns := columns df;
     rows := filter (λ r, forallb (λ c, negb (isna (cell c r))) cs = true) (rows df) |}.

(** Equality of two cells as [drop_duplicates] sees it: Python equality, and
    two missing values count as equal.  A string never equals a number.
    (An int and a float of the same value would be equal in Python; no column
    of this program mixes the two.) *)
Definition dup_eqb (a b : pyval) : bool :=
  match a, b with
  | VStr s, VStr t => bool_decide (s = t)
  | VInt x, VInt y => bool_decide (x = y)
  | VFloat f, VFloat g => PrimFloat.eqb f g
  | VTime s, VTime t => bool_decide (s = t)
  | VRegex p, VRegex q => bool_decide (p = q)
  | _, _ => isna a && isna b
  end.

(** [df.drop_duplicates(subset=[c], keep="first")]: a row is kept when no
    earlier row has an equal cell under [c]. *)
Fixpoint drop_dups (c : string) (seen : list pyval) (rs : list Row) : list Row :=
  match rs with
  | [] => []
  | r :: rs' =>
      if existsb (dup_eqb (cell c r)) seen then drop_dups c seen rs'
      else r :: drop_dups c (seen ++ [cell c r]) rs'
  end.

Definition drop_duplicates (c : string) (df : DataFrame) : result DataFrame :=
  if has_column c df
  then Ok {| columns := columns df; rows := drop_dups c [] (rows df) |}
  else Raise (KeyError c).

(** [pd.concat([a, b], ignore_index=True)]: the columns of [a], then those of
    [b] that [a] lacks; every row is reindexed on them, NaN where it had no
    cell. *)
Definition reindex (cols : list string) (r : Row) : Row :=
  list_to_map ((λ c, (c, cell c r)) <$> cols).

Definition concat (a b : DataFrame) : DataFrame :=
  let cols := columns a ++ filter (λ c : string, c ∉ columns a) (columns b) in
  {| columns := cols; rows := (reindex cols <$> rows a) ++ (reindex cols <$> rows b) |}.

(** The column [c] of the frame a script step returned; empty when it
    raised. *)
Definition result_column (c : string) (x : result DataFrame) : list pyval :=
  match x with
  | Ok df => cell c <$> rows df
  | Raise _ => []
  end.

(** * CSV files

    A CSV file is its header and its lines, each line a map from column name
    to the text of the cell (quoting is a detail of the byte stream and is
    not modelled). *)

Record Csv : Type := mkCsv {
  header : list string;
  body : list (gmap string string);
}.

(** The texts [read_csv] takes for a missing value by default. *)
Definition na_values : list string :=
  [""; "#N/A"; "#N/A N/A"; "#NA"; "-1.#IND"; "-1.#QNAN"; "-NaN"; "-nan";
   "1.#IND"; "1.#QNAN"; "<NA>"; "N/A"; "NA"; "NULL"; "NaN"; "None"; "n/a";
   "nan"; "null"].

Definition is_na_text (s : string) : bool := bool_decide (s ∈ na_values).

(** An integer literal: an optional sign and at least one digit. *)
Definition is_int_literal (s : string) : bool :=
  match s with
  | String "-" d | String "+" d => negb (bool_decide (d = "")) && PyStr.all_digits d
  | _ => negb (bool_decide (s = "")) && PyStr.all_digits s
  end.

Definition int_of_literal (s : string) : Z :=
  match s with
  | String "-" d => - Z.of_N (PyStr.digits_value 0 d)
  | String "+" d => Z.of_N (PyStr.digits_value 0 d)
  | _ => Z.of_N (PyStr.digits_value 0 s)
  end.

(** [read_csv] types a column as integers when every cell is an integer
    literal and the values fit [int64], or fit [uint64] with none negative. *)
Definition int_column (cells : list string) : bool :=
  forallb is_int_literal cells
  && (forallb (λ s, (- 2 ^ 63 <=? int_of_literal s) && (int_of_literal s <? 2 ^ 63)) cells
      || forallb (λ s, (0 <=? int_of_literal s) && (int_of_literal s <? 2 ^ 64)) cells).

(** One cell as [read_csv] types it.  A column given the ["string"] dtype
    holds [str] and [pd.NA]; an integer column holds ints; any other column
    is read as text, NaN where the text is a missing-value marker.  (The
    float, boolean and date inference of pandas is not modelled: such a
    column keeps its text, which is what [to_csv] writes back for it.) *)
Definition read_cell (string_dtype int_col : bool) (s : string) : pyval :=
  if string_dtype then (if is_na_text s then VNA else VStr s)
  else if int_col then VInt (int_of_literal s)
  else if is_na_text s then VNaN else VStr s.

(** [pd.read_csv(path, dtype={c: "string" for c in dtype})] *)
Definition read_csv (dtype : list string) (csv : Csv) : DataFrame :=
  let int_col c := int_column (str_cell c <$> body csv) in
  {| columns := header csv;
     rows := (λ b, list_to_map
                     ((λ c, (c, read_cell (bool_decide (c ∈ dtype)) (int_col c) (str_cell c b)))
                        <$> header csv)) <$> body csv |}.

Section Csv.
Context `{Library}.

(** [df.to_csv(path, index=False)] *)
Definition to_csv (df : DataFrame) : Csv :=
  {| header := columns df;
     body := (λ r, list_to_map ((λ c, (c, csv_text (cell c r))) <$> columns df)) <$> rows df |}.

(** [pd.to_datetime(column, errors="coerce")] on one cell. *)
Definition to_datetime_cell (v : pyval) : pyval :=
  if isna v then VNaT
  else match to_datetime (py_str v) with
       | Some t => VTime t
       | None => VNaT
       end.

End Csv.

(** * The files the scripts read and write

    [data/processed/ledger.csv] and [rules/rules.csv]; [None] when the file
    does not exist.  The parquet mirror is written in a [try] whose failure
    is ignored and is never read back: it is left out. *)
Record FS : Type := mkFS {
  ledger_csv : option Csv;
  rules_csv : option Csv;
}.

(** A script step: it returns or raises, and leaves the files in a state. *)
Definition IO (A : Type) : Type := FS → result A * FS.

Definition io_ret {A} (a : A) : IO A := λ fs, (Ok a, fs).
Definition io_raise {A} (e : exn) : IO A := λ fs, (Raise e, fs).
Definition io_bind {A B} (x : IO A) (k : A → IO B) : IO B :=
  λ fs, match x fs with
        | (Ok a, fs') => k a fs'
        | (Raise e, fs') => (Raise e, fs')
        end.
Definition io_lift {A} (x : result A) : IO A := λ fs, (x, fs).
Definition write_ledger (csv : Csv) : IO unit :=
  λ fs, (Ok tt, {| ledger_csv := Some csv; rules_csv := rules_csv fs |}).

Notation "'letIO' x := y 'in' z" := (io_bind y (λ x, z))
  (at level 10, x name, y at level 100, z at level 200, only parsing).

(** * The OFX statement parser

    Both import scripts scan the text with the same two regular expressions;
    they are fixed patterns and are written out as string functions. *)

Module Ofx.

(** [re.findall(r"<STMTTRN>(.*?)</STMTTRN>", text, flags=re.S | re.I)]: from
    the left, the next opening marker, then the text up to the first closing
    marker after it; the scan goes on after that closing marker.  When an
    opening marker has no closing marker after it, nothing further matches.
    The fuel is the length of the text: every step consumes a character. *)
Fixpoint findall_go (fuel : nat) (text : string) : list string :=
  match fuel with
  | O => []
  | S n =>
      match text with
      | EmptyString => []
      | String _ text' =>
          match PyStr.prefix_ci "<STMTTRN>" text with
          | Some rest =>
              match PyStr.split_ci "</STMTTRN>" rest with
              | Some (block, rest') => block :: findall_go n rest'
              | None => []
              end
          | None => findall_go n text'
          end
      end
  end.

Definition findall_stmttrn (text : string) : list string :=
  findall_go (String.length text) text.

(** A character of [[^\r\n<]]. *)
Definition is_value_char (c : ascii) : bool :=
  negb (Ascii.eqb c "013" || Ascii.eqb c "010" || Ascii.eqb c "<")%char.

Fixpoint take_value (s : string) : string :=
  match s with
  | String c s' => if is_value_char c then String c (take_value s') else EmptyString
  | EmptyString => EmptyString
  end.

(** [re.search(rf"<{name}>([^\r\n<]+)", b, flags=re.I)]: group 1 of the
    leftmost match, [None] when there is none. *)
Fixpoint tag_search (name : string) (b : string) : option string :=
  match b with
  | EmptyString => None
  | String _ b' =>
      match PyStr.prefix_ci ("<" +:+ name +:+ ">") b with
      | Some rest =>
          match take_value rest with
          | EmptyString => tag_search name b'
          | v => Some v
          end
      | None => tag_search name b'
      end
  end.

(** The local function [tag] of [_parse_ofx_sgml]. *)
Definition tag (b : string) (name : string) : string :=
  match tag_search name b with
  | Some v => PyStr.strip v
  | None => ""
  end.

(** [x or y] on strings. *)
Definition str_or (x y : string) : string :=
  if bool_decide (x = "") then y else x.

(** [re.match(r"(\d{4})(\d{2})(\d{2})", s)]: the three groups. *)
Fixpoint take_digits (n : nat) (s : string) : option (string * string) :=
  match n with
  | O => Some (EmptyString, s)
  | S n' =>
      match s with
      | String c s' =>
          if PyStr.is_digit c then
            match take_digits n' s' with
            | Some (d, rest) => Some (String c d, rest)
            | None => None
            end
          else None
      | EmptyString => None
      end
  end.

Definition match_yyyymmdd (s : string) : option (string * string * string) :=
  match take_digits 4 s with
  | Some (y, r1) =>
      match take_digits 2 r1 with
      | Some (mo, r2) =>
          match take_digits 2 r2 with
          | Some (d, _) => Some (y, mo, d)
          | None => None
          end
      | None => None
      end
  | None => None
  end.

Section Coerce.
Context `{Library}.

(** [_coerce_date], the same in both scripts. *)
Definition _coerce_date (dtposted : string) : pyval :=
  match match_yyyymmdd dtposted with
  | None => VNaT
  | Some (y, mo, d) =>
      match to_datetime (y +:+ "-" +:+ mo +:+ "-" +:+ d) with
      | Some t => VTime t
      | None => VNaT
      end
  end.

(** [_coerce_amount], the same in both scripts: [float] of the trimmed text,
    NaN when [float] raises (and when the text spells NaN). *)
Definition _coerce_amount (x : string) : pyval :=
  match py_float (PyStr.strip x) with
  | Some f => if PrimFloat.is_nan f then VNaN else VFloat f
  | None => VNaN
  end.

(** [v < 0] on an amount. *)
Definition lt0 (v : pyval) : bool :=
  match v with
  | VFloat f => PrimFloat.ltb f PrimFloat.zero
  | VInt z => z <? 0
  | _ => false
  end.

(** [lambda v: "expense" if v < 0 else "income"] *)
Definition type_of_amount (v : pyval) : pyval :=
  VStr (if lt0 v then "expense" else "income").

(** [s.fillna(d)] on one cell. *)
Definition fillna (d : string) (v : pyval) : pyval :=
  if isna v then VStr d else v.

(** [s.eq(t)] on one cell, for a string [t]. *)
Definition eq_str (v : pyval) (t : string) : bool :=
  match v with
  | VStr s => bool_decide (s = t)
  | _ => false
  end.

(** [pd.util.hash_pandas_object(key, index=False).astype("uint64").astype(str)]
    on one key. *)
Definition tx_id_of_key (key : string) : pyval :=
  VStr (pretty (hash_pandas_object key `mod` 2 ^ 64)).

End Coerce.

Section Survives.
Context `{Library}.

(** A field map whose row [dropna(subset=["date", "amount"])] keeps. *)
Definition survives (b : gmap string string) : bool :=
  negb (isna (_coerce_date (str_cell "DTPOSTED" b)))
  && negb (isna (_coerce_amount (str_cell "TRNAMT" b))).

End Survives.

(** The ValueError both scripts raise on a statement without a block. *)
Definition no_transactions : exn :=
  ValueError "Nenhuma transação encontrada no OFX (sem blocos <STMTTRN>).".

End Ofx.

(** The loop of both [main]s over the sorted file names: the first file
    whose name passes the test, else the first file. *)
Definition pick {A} (p : string → bool) (files : list (string * A)) : option (string * A) :=
  match List.find (λ f, p f.1) files with
  | Some f => Some f
  | None => head files
  end.

(** * scripts/import_itau_ofx.py *)

Module Itau.
Section Script.
Context `{Library}.

(** [_parse_ofx_sgml]: one field map per block, in file order. *)
Definition _parse_ofx_sgml (text : string) : list (gmap string string) :=
  (λ b,
     let dtposted := Ofx.tag b "DTPOSTED" in
     let trnamt := Ofx.tag b "TRNAMT" in
     let memo := Ofx.str_or (Ofx.tag b "MEMO") (Ofx.tag b "NAME") in
     let fitid := Ofx.tag b "FITID" in
     let checknum := Ofx.tag b "CHECKNUM" in
     let refnum := Ofx.tag b "REFNUM" in
     ({[ "DTPOSTED" := dtposted; "TRNAMT" := trnamt; "MEMO" := memo;
         "FITID" := fitid; "CHECKNUM" := checknum; "REFNUM" := refnum ]}
        : gmap string string))
  <$> Ofx.findall_stmttrn text.

(** The key material of [tx_id] for one row of [out]. *)
Definition tx_key (r : Row) : string :=
  let key := astype_str (Ofx.fillna "" (cell "external_id" r)) in
  if Ofx.eq_str (VStr key) "" || Ofx.eq_str (VStr key) "|" then
    astype_str (cell "date" r) +:+ "|" +:+ astype_str (cell "description" r)
      +:+ "|" +:+ astype_str (cell "amount" r) +:+ "|itau"
  else key.

(** The row of [out] built from one field map. *)
Definition out_row (file_name : string) (b : gmap string string) : Row :=
  {[ "date" := Ofx._coerce_date (str_cell "DTPOSTED" b);
     "description" := VStr (PyStr.strip (str_cell "MEMO" b));
     "amount" := Ofx._coerce_amount (str_cell "TRNAMT" b);
     "source" := VStr "itau";
     "external_id" := VStr (PyStr.strip (str_cell "FITID" b));
     "file_name" := VStr file_name ]}.

(** The value of [fallback] for one field map. *)
Definition fallback (b : gmap string string) : string :=
  PyStr.strip (str_cell "REFNUM" b) +:+ "|" +:+ PyStr.strip (str_cell "CHECKNUM" b).

(** [out.loc[mask_empty, "external_id"] = fallback.loc[mask_empty]] on one row. *)
Definition fill_external_id (fb : string) (r : Row) : Row :=
  if Ofx.eq_str (Ofx.fillna "" (cell "external_id" r)) ""
  then <["external_id" := VStr fb]> r else r.

Definition out_columns : list string :=
  ["date"; "description"; "amount"; "source"; "external_id"; "file_name"].

(** The body of [import_itau_ofx] after the check for an empty frame: the
    standardized frame built from the field maps. *)
Definition standardize (file_name : string) (rows : list (gmap string string))
  : DataFrame :=
  let out := out_row file_name <$> rows in
  (* fallback external_id when FITID is empty *)
  let out := zip_with fill_external_id (fallback <$> rows) out in
  let out := dropna ["date"; "amount"] {| columns := out_columns; rows := out |} in
  let out := setitem_rowwise "type" (λ r, Ofx.type_of_amount (cell "amount" r)) out in
  setitem_rowwise "tx_id" (λ r, Ofx.tx_id_of_key (tx_key r)) out.

(** [import_itau_ofx]; [file_name] is [ofx_path.name] and [text] what
    [read_text] returns. *)
Definition import_itau_ofx (file_name text : string) : result DataFrame :=
  let rows := _parse_ofx_sgml text in
  match rows with
  | [] => Raise Ofx.no_transactions
  | _ => Ok (standardize file_name rows)
  end.

(** The row [import_itau_ofx] returns for a field map that passes [dropna]. *)
Definition ledger_row (file_name : string) (b : gmap string string) : Row :=
  let r := fill_external_id (fallback b) (out_row file_name b) in
  let r := <["type" := Ofx.type_of_amount (cell "amount" r)]> r in
  <["tx_id" := Ofx.tx_id_of_key (tx_key r)]> r.

(** What [append_to_ledger] reads back from [ledger.csv]. *)
Definition load_ledger (csv : Csv) : DataFrame :=
  let old := read_csv ["tx_id"; "external_id"] csv in
  if has_column "date" old
  then setitem_rowwise "date" (λ r, to_datetime_cell (cell "date" r)) old
  else old.

(** The frame [append_to_ledger] writes, from the frame read back (if the
    file exists) and the new batch. *)
Definition merge_ledger (old : option DataFrame) (new_df : DataFrame) : result DataFrame :=
  match old with
  | Some old =>
      let combined := concat old new_df in
      letR _ := getitem "tx_id" combined in
      let combined :=
        setitem_rowwise "tx_id" (λ r, VStr (astype_str (cell "tx_id" r))) combined in
      drop_duplicates "tx_id" combined
  | None => drop_duplicates "tx_id" new_df
  end.

(** [append_to_ledger] *)
Definition append_to_ledger (new_df : DataFrame) : IO unit :=
  λ fs,
    match merge_ledger (load_ledger <$> ledger_csv fs) new_df with
    | Ok combined => write_ledger (to_csv combined) fs
    | Raise e => (Raise e, fs)
    end.

(** The file [main] picks among the sorted [*.ofx] names of the inbox. *)
Definition is_itau_name (name : string) : bool :=
  let name := PyStr.lower name in
  PyStr.contains_cs "itau" name
  || PyStr.contains_cs ("ita" +:+ String (ascii_of_nat 250) "") name
  || PyStr.contains_cs "extrato" name.

(** [main]; [files] are the names and texts of [sorted(inbox.glob("*.ofx"))]. *)
Definition main (files : list (string * string)) : IO unit :=
  match pick is_itau_name files with
  | None => io_ret tt
  | Some (name, text) =>
      letIO df := io_lift (import_itau_ofx name text) in
      append_to_ledger df
  end.

End Script.
End Itau.

(** * scripts/import_nubank_ofx.py *)

Module Nubank.
Section Script.
Context `{Library}.

(** [_parse_ofx_sgml]: one field map per block, in file order. *)
Definition _parse_ofx_sgml (text : string) : list (gmap string string) :=
  (λ b,
     let dtposted := Ofx.tag b "DTPOSTED" in
     let trnamt := Ofx.tag b "TRNAMT" in
     let memo := Ofx.str_or (Ofx.tag b "MEMO") (Ofx.tag b "NAME") in
     let fitid := Ofx.tag b "FITID" in
     ({[ "DTPOSTED" := dtposted; "TRNAMT" := trnamt; "MEMO" := memo;
         "FITID" := fitid ]} : gmap string string))
  <$> Ofx.findall_stmttrn text.

(** The key material of [tx_id] for one row of [out]. *)
Definition tx_key (r : Row) : string :=
  let key := astype_str (Ofx.fillna "" (cell "external_id" r)) in
  if Ofx.eq_str (VStr key) "" then
    astype_str (cell "date" r) +:+ "|" +:+ astype_str (cell "description" r)
      +:+ "|" +:+ astype_str (cell "amount" r) +:+ "|nubank"
  else key.

(** The row of [out] built from one field map. *)
Definition out_row (file_name : string) (b : gmap string string) : Row :=
  {[ "date" := Ofx._coerce_date (str_cell "DTPOSTED" b);
     "description" := VStr (PyStr.strip (str_cell "MEMO" b));
     "amount" := Ofx._coerce_amount (str_cell "TRNAMT" b);
     "source" := VStr "nubank";
     "external_id" := VStr (PyStr.strip (str_cell "FITID" b));
     "file_name" := VStr file_name ]}.

Definition out_columns : list string :=
  ["date"; "description"; "amount"; "source"; "external_id"; "file_name"].

(** The body of [import_nubank_ofx] after the check for an empty frame. *)
Definition standardize (file_name : string) (rows : list (gmap string string))
  : DataFrame :=
  let out := out_row file_name <$> rows in
  let out := dropna ["date"; "amount"] {| columns := out_columns; rows := out |} in
  let out := setitem_rowwise "type" (λ r, Ofx.type_of_amount (cell "amount" r)) out in
  setitem_rowwise "tx_id" (λ r, Ofx.tx_id_of_key (tx_key r)) out.

(** [import_nubank_ofx] *)
Definition import_nubank_ofx (file_name text : string) : result DataFrame :=
  let rows := _parse_ofx_sgml text in
  match rows with
  | [] => Raise Ofx.no_transactions
  | _ => Ok (standardize file_name rows)
  end.

(** The row [import_nubank_ofx] returns for a field map that passes [dropna]. *)
Definition ledger_row (file_name : string) (b : gmap string string) : Row :=
  let r := out_row file_name b in
  let r := <["type" := Ofx.type_of_amount (cell "amount" r)]> r in
  <["tx_id" := Ofx.tx_id_of_key (tx_key r)]> r.

(** What [append_to_ledger] reads back from [ledger.csv]: no dtype is given,
    so every column is typed by inference. *)
Definition load_ledger (csv : Csv) : DataFrame :=
  let old := read_csv [] csv in
  if has_column "date" old
  then setitem_rowwise "date" (λ r, to_datetime_cell (cell "date" r)) old
  else old.

(** The frame [append_to_ledger] writes. *)
Definition merge_ledger (old : option DataFrame) (new_df : DataFrame) : result DataFrame :=
  match old with
  | Some old => drop_duplicates "tx_id" (concat old new_df)
  | None => drop_duplicates "tx_id" new_df
  end.

(** [append_to_ledger] *)
Definition append_to_ledger (new_df : DataFrame) : IO unit :=
  λ fs,
    match merge_ledger (load_ledger <$> ledger_csv fs) new_df with
    | Ok combined => write_ledger (to_csv combined) fs
    | Raise e => (Raise e, fs)
    end.

Definition is_nubank_name (name : string) : bool :=
  PyStr.contains_cs "nubank" (PyStr.lower name).

(** [main]; [files] are the names and texts of [sorted(inbox.glob("*.ofx"))]. *)
Definition main (files : list (string * string)) : IO unit :=
  match pick is_nubank_name files with
  | None => io_ret tt
  | Some (name, text) =>
      letIO df := io_lift (import_nubank_ofx name text) in
      append_to_ledger df
  end.

End Script.
End Nubank.

(** * scripts/apply_rules.py *)

Module Rules.

(** ** The object store

    [apply_rules] copies the frame it is given and updates the copy in
    place.  DataFrame objects live in a store; a reference is an index. *)

Abbreviation Heap := (list DataFrame).

Definition Py (A : Type) : Type := Heap → result A * Heap.

Definition ret {A} (a : A) : Py A := λ h, (Ok a, h).
Definition raise {A} (e : exn) : Py A := λ h, (Raise e, h).
Definition bind {A B} (x : Py A) (k : A → Py B) : Py B :=
  λ h, match x h with
       | (Ok a, h') => k a h'
       | (Raise e, h') => (Raise e, h')
       end.
Definition lift {A} (x : result A) : Py A := λ h, (x, h).

Notation "'letPy' x := y 'in' z" := (bind y (λ x, z))
  (at level 10, x name, y at level 100, z at level 200, only parsing).

(** Reading the object behind a reference. *)
Definition deref (df : nat) : Py DataFrame :=
  λ h, match h !! df with
       | Some d => (Ok d, h)
       | None => (Raise (AttributeError "dangling reference"), h)
       end.

(** Updating the object behind a reference in place. *)
Definition update (df : nat) (f : DataFrame → result DataFrame) : Py unit :=
  λ h, match h !! df with
       | Some d =>
           match f d with
           | Ok d' => (Ok tt, <[df := d']> h)
           | Raise e => (Raise e, h)
           end
       | None => (Raise (AttributeError "dangling reference"), h)
       end.

(** [df.copy()]: a new object with the same contents. *)
Definition copy (df : nat) : Py nat :=
  λ h, match h !! df with
       | Some d => (Ok (length h), h ++ [d])
       | None => (Raise (AttributeError "dangling reference"), h)
       end.

(** [c in df.columns] *)
Definition contains (df : nat) (c : string) : Py bool :=
  letPy d := deref df in ret (has_column c d).

(** [df[c] = v] *)
Definition setitem (df : nat) (c : string) (v : pyval) : Py unit :=
  update df (λ d, Ok (setitem_scalar c v d)).

(** [df[c]] *)
Definition getcol (df : nat) (c : string) : Py (list pyval) :=
  letPy d := deref df in lift (getitem c d).

(** [df.loc[m, c] = v] *)
Definition loc_set (df : nat) (m : list bool) (c : string) (v : pyval) : Py unit :=
  update df (loc_setitem m c v).

(** [for x in xs: body(x)] *)
Fixpoint for_each {A} (xs : list A) (body : A → Py unit) : Py unit :=
  match xs with
  | [] => ret tt
  | x :: xs' => letPy _ := body x in for_each xs' body
  end.

Section Script.
Context `{Library}.

(** ** load_rules *)

(** The cast of a 64-bit integer to [int64]: an unsigned value from 2^63 on
    wraps to a negative one. *)
Definition wrap64 (z : Z) : Z := (z + 2 ^ 63) `mod` 2 ^ 64 - 2 ^ 63.

(** [pd.to_numeric(v, errors="coerce")] on one cell, with the integer
    [astype(int)] makes of it.  A cell of an integer column ([int64] or
    [uint64]) is cast with wrap-around.  A text cell belongs to a column that
    pandas holds as floats or as objects: the number goes through a float, so
    an integer literal of magnitude up to 2^53 comes out as it is, and any
    other text is left to the library. *)
Definition to_numeric (v : pyval) : numeric :=
  match v with
  | VInt z => Num (wrap64 z)
  | VFloat f => if PrimFloat.is_infinity f then NonFinite else Num (float_to_int f)
  | VStr s =>
      if is_int_literal s && (Z.abs (int_of_literal s) <=? 2 ^ 53)
      then Num (int_of_literal s) else str_to_numeric s
  | _ => Coerced
  end.

(** [pd.to_numeric(., errors="coerce").fillna(9999).astype(int)] on one cell;
    the cast raises on an infinity. *)
Definition normalize_priority (v : pyval) : result Z :=
  match to_numeric v with
  | Num z => Ok z
  | Coerced => Ok 9999
  | NonFinite =>
      Raise (ValueError "Cannot convert non-finite values (NA or inf) to integer")
  end.

(** The priority of a rule once normalized (9999 also where the cast raises,
    in which case [load_rules] returns no rule list). *)
Definition priority_of (v : pyval) : Z :=
  match normalize_priority v with
  | Ok z => z
  | Raise _ => 9999
  end.

(** [re.compile(p, re.I)] *)
Definition compile (p : string) : result pyval :=
  if re_compiles p then Ok (VRegex p) else Raise (ReError p).

Fixpoint compile_all (ps : list string) : result (list pyval) :=
  match ps with
  | [] => Ok []
  | p :: ps' => letR rx := compile p in letR rxs := compile_all ps' in Ok (rx :: rxs)
  end.

(** [df[c] = values], one value per row. *)
Definition setitem_list (c : string) (vs : list pyval) (df : DataFrame) : DataFrame :=
  {| columns := add_column c (columns df);
     rows := zip_with (λ v (r : Row), <[c := v]> r) vs (rows df) |}.

(** [load_rules], from the frame [pd.read_csv(path)] returns. *)
Definition load_rules_frame (rules : DataFrame) : result DataFrame :=
  letR prio := getitem "priority" rules in
  letR prio := rmap normalize_priority prio in
  let rules := setitem_list "priority" (VInt <$> prio) rules in
  let rules :=
    {| columns := columns rules; rows := sort_values "priority" (rows rules) |} in
  letR pats := getitem "pattern" rules in
  letR rxs := compile_all (astype_str <$> pats) in
  Ok (setitem_list "regex" rxs rules).

(** A rule with its priority normalized, and with its pattern compiled. *)
Definition norm_row (r : Row) : Row :=
  <["priority" := VInt (priority_of (cell "priority" r))]> r.

Definition compile_row (r : Row) : Row :=
  <["regex" := VRegex (astype_str (cell "pattern" r))]> r.

(** [load_rules(RULES_PATH)] *)
Definition load_rules : IO DataFrame :=
  λ fs, match rules_csv fs with
        | Some csv => (load_rules_frame (read_csv [] csv), fs)
        | None => (Raise (FileNotFoundError "rules/rules.csv"), fs)
        end.

(** ** apply_rules *)

(** [r.get(c, "")] on a row of [rules.iterrows()] *)
Definition row_get (c : string) (r : Row) : pyval := default (VStr "") (r !! c).

(** [r[c]] *)
Definition row_getitem (c : string) (r : Row) : result pyval :=
  match r !! c with
  | Some v => Ok v
  | None => Raise (KeyError c)
  end.

(** [v.isin(["Uncategorized", "", None]) | v.isna()] on one cell *)
Definition is_default (v : pyval) : bool :=
  match v with
  | VStr s => bool_decide (s = "Uncategorized") || bool_decide (s = "")
  | VNone => true
  | _ => false
  end
  || isna v.

(** [desc.apply(lambda x: bool(rx.search(x)))]; a value that is no compiled
    pattern has no [search]. *)
Definition search_all (rx : pyval) (desc : list string) : result (list bool) :=
  match rx with
  | VRegex p => Ok (re_search p <$> desc)
  | _ =>
      match desc with
      | [] => Ok []
      | _ => Raise (AttributeError "search")
      end
  end.

Definition type_hints : list string := ["expense"; "income"; "transfer"; "investment"].

(** The three strings the loop body reads off a rule. *)
Definition rule_cat (r : Row) : string := PyStr.strip (py_str (row_get "category" r)).
Definition rule_sub (r : Row) : string := PyStr.strip (py_str (row_get "subcategory" r)).
Definition rule_hint (r : Row) : string :=
  PyStr.lower (PyStr.strip (py_str (row_get "type_hint" r))).

(** The body of the loop over the rules. *)
Definition rule_step (df : nat) (desc : list string) (r : Row) : Py unit :=
  letPy rx := lift (row_getitem "regex" r) in
  let cat := rule_cat r in
  let sub := rule_sub r in
  let hint := rule_hint r in
  if bool_decide (cat = "") then ret tt
  else
    letPy m := lift (search_all rx desc) in
    letPy cats := getcol df "category" in
    let m := zip_with andb m (is_default <$> cats) in
    letPy _ := loc_set df m "category" (VStr cat) in
    letPy _ := loc_set df m "subcategory"
                 (VStr (if bool_decide (sub = "") then cat else sub)) in
    if bool_decide (hint ∈ type_hints) then loc_set df m "type" (VStr hint)
    else ret tt.

(** [apply_rules(df, rules)]: the reference it returns is the copy. *)
Definition apply_rules (df : nat) (rules : DataFrame) : Py nat :=
  letPy df := copy df in
  letPy has_cat := contains df "category" in
  letPy _ := (if has_cat then ret tt
              else setitem df "category" (VStr "Uncategorized")) in
  letPy has_sub := contains df "subcategory" in
  letPy _ := (if has_sub then ret tt
              else setitem df "subcategory" (VStr "Uncategorized")) in
  letPy desc := getcol df "description" in
  let desc := astype_str <$> desc in
  letPy _ := for_each (rows rules) (rule_step df desc) in
  ret df.

(** [main] *)
Definition main : IO unit :=
  λ fs,
    match ledger_csv fs with
    | None => (Ok tt, fs)
    | Some csv =>
        let df := read_csv ["tx_id"; "external_id"] csv in
        match load_rules fs with
        | (Raise e, fs') => (Raise e, fs')
        | (Ok rules, fs') =>
            match apply_rules 0%nat rules [df] with
            | (Raise e, _) => (Raise e, fs')
            | (Ok out, h) =>
                match h !! out with
                | Some d => write_ledger (to_csv d) fs'
                | None => (Raise (AttributeError "dangling reference"), fs')
                end
            end
        end
    end.

End Script.
End Rules.

(** * What is assumed of the library

    [sort_values] with the default [kind="quicksort"] is documented to sort,
    not to be stable: the result is a permutation of the rows, ascending in
    the column when it holds integers. *)

Definition int_cell (c : string) (r : Row) : Z :=
  match cell c r with
  | VInt z => z
  | _ => 0
  end.

Definition le_on (c : string) (r1 r2 : Row) : Prop := int_cell c r1 ≤ int_cell c r2.

#[global] Instance le_on_trans c : Transitive (le_on c).
Proof. intros r1 r2 r3. unfold le_on. lia. Qed.


(** * The identifiers of a ledger file *)

(** The [tx_id] texts of a ledger file, line by line. *)
Definition tx_ids (csv : Csv) : list string := str_cell "tx_id" <$> body csv.

(** The text of an identifier as the imports compute it: a number below 2^64
    in decimal digits. *)
Definition is_tx_id (s : string) : Prop := ∃ n : Z, 0 ≤ n < 2 ^ 64 ∧ s = pretty n.

(** A cell that holds a string or an integer; [drop_duplicates] compares two
    such cells by equality. *)
Definition plain (v : pyval) : Prop :=
  match v with
  | VStr _ | VInt _ => True
  | _ => False
  end.

(** The cast [combined["tx_id"].astype(str)] of the Itaú merge, on one row. *)
Definition str_tx_id `{Library} (r : Row) : Row :=
  <["tx_id" := VStr (astype_str (cell "tx_id" r))]> r.

(** * The identity key as the specification words it

    The primary external reference when it is not empty; else, for a source
    with secondary references, [ref|check] unless both parts are blank; else
    [date|description|amount|source]. *)
Definition spec_key_material (secondary : bool)
    (fitid refnum checknum date description amount source : string) : string :=
  if negb (bool_decide (fitid = "")) then fitid
  else if secondary
          && negb (bool_decide (refnum = "") && bool_decide (checknum = ""))
       then refnum +:+ "|" +:+ checknum
  else date +:+ "|" +:+ description +:+ "|" +:+ amount +:+ "|" +:+ source.

(** The key the code uses in fact.  It differs from the wording above at one
    point: for a source with secondary references a primary reference that
    is the lone separator ["|"] is set aside like an empty [ref|check]. *)
Definition code_key_material (secondary : bool)
    (fitid refnum checknum date description amount source : string) : string :=
  if negb (bool_decide (fitid = "")) && negb (secondary && bool_decide (fitid = "|"))
  then fitid
  else if secondary && bool_decide (fitid = "")
          && negb (bool_decide (refnum = "") && bool_decide (checknum = ""))
       then refnum +:+ "|" +:+ checknum
  else date +:+ "|" +:+ description +:+ "|" +:+ amount +:+ "|" +:+ source.

(** * One rule on one transaction

    What the body of the loop of [apply_rules] does to a single row; the
    statements about [apply_rules] are phrased with it. *)

Section RuleOnRow.
Context `{Library}.

(** The rule is not skipped and carries a valid type hint. *)
Definition sets_type (r : Row) : bool :=
  negb (bool_decide (Rules.rule_cat r = ""))
  && bool_decide (Rules.rule_hint r ∈ Rules.type_hints).


(** The mask of the rule at this row. *)
Definition rule_mask (r : Row) (x : Row) : bool :=
  match r !! "regex" with
  | Some (VRegex p) => re_search p (astype_str (cell "description" x))
  | _ => false
  end
  && Rules.is_default (cell "category" x).

(** The three assignments under the mask. *)
Definition assign (r : Row) (x : Row) : Row :=
  let cat := Rules.rule_cat r in
  let sub := Rules.rule_sub r in
  let x := <["subcategory" := VStr (if bool_decide (sub = "") then cat else sub)]>
             (<["category" := VStr cat]> x) in
  if bool_decide (Rules.rule_hint r ∈ Rules.type_hints)
  then <["type" := VStr (Rules.rule_hint r)]> x else x.

(** [has_type]: the frame has a "type" column before the rule runs. *)
Definition row_step (has_type : bool) (r : Row) (x : Row) : Row :=
  if bool_decide (Rules.rule_cat r = "") then x
  else if rule_mask r x then assign r x
  else if sets_type r && negb has_type then <["type" := VNaN]> x
  else x.

Fixpoint row_steps (has_type : bool) (rs : list Row) (x : Row) : Row :=
  match rs with
  | [] => x
  | r :: rs' => row_steps (has_type || sets_type r) rs' (row_step has_type r x)
  end.

(** The frame after one rule, and after a list of rules. *)
Definition frame_step (r : Row) (d : DataFrame) : DataFrame :=
  {| columns := if sets_type r then add_column "type" (columns d) else columns d;
     rows := row_step (has_column "type" d) r <$> rows d |}.

Definition frame_steps (rs : list Row) (d : DataFrame) : DataFrame :=
  foldl (λ d r, frame_step r d) d rs.

(** The frame the loop starts from: the copy with its two default columns. *)
Definition with_defaults (d : DataFrame) : DataFrame :=
  let d := if has_column "category" d then d
           else setitem_scalar "category" (VStr "Uncategorized") d in
  if has_column "subcategory" d then d
  else setitem_scalar "subcategory" (VStr "Uncategorized") d.

(** The row [with_defaults] makes of a row: the default columns are added
    when the frame lacks them. *)
Definition default_row (d : DataFrame) (x : Row) : Row :=
  let x := if has_column "category" d then x
           else <["category" := VStr "Uncategorized"]> x in
  if has_column "subcategory" d then x
  else <["subcategory" := VStr "Uncategorized"]> x.

(** A rule the loop body can run on a frame: it has a compiled pattern, and
    it does not have to create the "type" column on a frame without rows. *)
Definition runnable (d : DataFrame) (r : Row) : Prop :=
  (∃ p, r !! "regex" = Some (VRegex p))
  ∧ (sets_type r = true → has_column "type" d = true ∨ rows d ≠ []).

(** The rules of a list can all be run on a frame. *)
Definition runnable_all (d : DataFrame) (rs : list Row) : Prop :=
  Forall (λ r, ∃ p, r !! "regex" = Some (VRegex p)) rs
  ∧ (has_column "type" d = true ∨ rows d ≠ []
     ∨ Forall (λ r, sets_type r = false) rs).

(** The description column as the loop sees it. *)
Definition desc_of (d : DataFrame) : list string :=
  astype_str <$> (cell "description" <$> rows d).

End RuleOnRow.

(** * A library instance

    One way the interface can behave, used to show that the hypotheses of
    the theorems can be met and to run the scripts on concrete files:
    patterns are searched as plain text without case (what [re] does for a
    pattern without metacharacters), rows are sorted by the merge sort of
    stdpp (a sort, and like the default of pandas not a stable one), a
    handful of amounts are parsed, and every date text is taken as it is. *)
Module Demo.

Fixpoint poly_hash (acc : Z) (s : string) : Z :=
  match s with
  | String c s' => poly_hash (acc * 1099511628211 + Z.of_nat (nat_of_ascii c)) s'
  | EmptyString => acc
  end.

Definition amounts : list (string * float) :=
  [("-45.90", (-0x1.6f33333333333p+5)%float); ("-12.5", (-12.5)%float); ("10", 10%float);
   ("250.00", 250%float)].

Definition parse_amount (s : string) : option float :=
  snd <$> List.find (λ p, bool_decide (p.1 = s)) amounts.

Definition print_amount (f : float) : string :=
  match List.find (λ p, PrimFloat.eqb p.2 f) amounts with
  | Some (_, g) =>
      if PrimFloat.eqb g (-0x1.6f33333333333p+5)%float then "-45.9"
      else if PrimFloat.eqb g (-12.5)%float then "-12.5"
      else if PrimFloat.eqb g 10%float then "10.0" else "250.0"
  | None => "0.0"
  end.

#[global] Instance le_on_dec c : RelDecision (le_on c).
Proof. intros r1 r2. unfold le_on. apply _. Defined.

#[global] Instance le_on_total c : Total (le_on c).
Proof. intros r1 r2. unfold le_on. lia. Qed.

Definition lib : Library := {|
  re_compiles := λ _, true;
  re_search := PyStr.contains_ci;
  hash_pandas_object := poly_hash 14695981039346656037;
  py_float := parse_amount;
  float_str := print_amount;
  float_to_int := λ _, 0;
  str_to_numeric := λ _, Coerced;
  to_datetime := Some;
  sort_values := λ c rs, merge_sort (le_on c) rs;
|}.

End Demo.

(** The fields [_parse_ofx_sgml] returns are trimmed: the [strip] the
    import applies to them again changes nothing. *)
Definition trimmed (b : gmap string string) : Prop :=
  ∀ k, PyStr.strip (str_cell k b) = str_cell k b.

(** * Concrete files

    Statements, rule files and ledgers the examples below run the scripts
    on. *)
Module Examples.

(** One block whose primary reference is the separator alone. *)
Definition pipe_statement : string :=
  "<STMTTRN><DTPOSTED>20240115<TRNAMT>10<FITID>|<MEMO>X</STMTTRN>".

(** A Nubank statement of one transaction, the inbox that holds it, and the
    files before a first import. *)
Definition nubank_statement : string :=
  "<STMTTRN><DTPOSTED>20240115<TRNAMT>-45.90<FITID>ABC123<MEMO>UBER TRIP</STMTTRN>".

Definition inbox : list (string * string) := [("nubank.ofx", nubank_statement)].

Definition no_ledger : FS := {| ledger_csv := None; rules_csv := None |}.



(** The identifiers of the ledger file after [n] runs of a [main] on the
    inbox, starting without a ledger. *)
Fixpoint run_times (main : IO unit) (n : nat) : FS :=
  match n with
  | O => no_ledger
  | S n' => (main (run_times main n')).2
  end.

Definition ids_after (main : IO unit) (n : nat) : list string :=
  match ledger_csv (run_times main n) with
  | Some csv => tx_ids csv
  | None => []
  end.

(** A ledger as [apply_rules] gets it: one transaction still to be
    categorized, one that has its category. *)
Definition uber_row : Row :=
  {[ "description" := VStr "UBER TRIP 123"; "type" := VStr "expense";
     "category" := VStr "Uncategorized" ]}.

Definition ledger : DataFrame :=
  {| columns := ["description"; "type"; "category"];
     rows := [ uber_row;
               {[ "description" := VStr "UBER EATS"; "type" := VStr "expense";
                  "category" := VStr "Food" ]} ] |}.

Definition rule_columns : list string :=
  ["pattern"; "priority"; "category"; "subcategory"; "type_hint"].

(** A line of [rules.csv]. *)
Definition rule_line (pattern priority category subcategory type_hint : string)
  : gmap string string :=
  {[ "pattern" := pattern; "priority" := priority; "category" := category;
     "subcategory" := subcategory; "type_hint" := type_hint ]}.


(** Scenario 3 of the specification: pattern UBER, priority 1, category
    Transport, subcategory left blank. *)
Definition uber_rules : Csv :=
  {| header := rule_columns; body := [rule_line "UBER" "1" "Transport" "" ""] |}.

(** A rule whose category is left blank. *)
Definition blank_category_rules : Csv :=
  {| header := rule_columns; body := [rule_line "UBER" "1" "" "" ""] |}.


(** Two rules on the same pattern, the one of priority 2 first in the file. *)
Definition two_rules : Csv :=
  {| header := rule_columns;
     body := [rule_line "UBER" "2" "Ride" "" "";
              rule_line "UBER" "1" "Transport" "Taxi" "transfer"] |}.



(** The rule list [load_rules] makes of a file, with the library [Demo.lib];
    empty when it raises. *)
Definition compiled_with (L : Library) (csv : Csv) : DataFrame :=
  match Rules.load_rules_frame (H := L) (read_csv [] csv) with
  | Ok rules => rules
  | Raise _ => {| columns := []; rows := [] |}
  end.

Definition compiled (csv : Csv) : DataFrame := compiled_with Demo.lib csv.

(** The first rule of the list. *)
Definition first_rule (csv : Csv) : Row := default ∅ (head (rows (compiled csv))).

(** [apply_rules] on a store that holds one frame. *)
Definition run_rules (csv : Csv) (df : DataFrame) : result nat * list DataFrame :=
  Rules.apply_rules (H := Demo.lib) 0%nat (compiled csv) [df].

(** Category, subcategory and type of every row of the frame it returns. *)
Definition categories_after (csv : Csv) (df : DataFrame)
  : list (pyval * pyval * pyval) :=
  match run_rules csv df with
  | (Ok out, h) =>
      match h !! out with
      | Some d => (λ x, (cell "category" x, cell "subcategory" x, cell "type" x))
                    <$> rows d
      | None => []
      end
  | (Raise _, _) => []
  end.

End Examples.

(** * Facts about the string functions *)

Module PyStrFacts.
Import PyStr.

Lemma lstrip_idemp s : lstrip (lstrip s) = lstrip s.
Proof.
  induction s as [|c s IH]; simpl; [done|].
  destruct (is_space c) eqn:Hc; [done|]. simpl. by rewrite Hc.
Qed.

Lemma rstrip_idemp s : rstrip (rstrip s) = rstrip s.
Proof.
  induction s as [|c s IH]; simpl; [done|].
  destruct (rstrip s) as [|a t] eqn:Hr.
  - destruct (is_space c) eqn:Hc; simpl; [done|]. by rewrite Hc.
  - change (rstrip (String c (String a t))) with
      (match rstrip (String a t) with
       | EmptyString => if is_space c then EmptyString else String c EmptyString
       | t' => String c t'
       end).
    by rewrite IH.
Qed.

(** Trimming the left end of a string without trailing blanks leaves it
    without trailing blanks. *)
Lemma rstrip_lstrip_fixed t : rstrip t = t → rstrip (lstrip t) = lstrip t.
Proof.
  induction t as [|c t IH]; simpl; [done|].
  intros Hfix. destruct (is_space c) eqn:Hc.
  - apply IH. destruct (rstrip t) as [|a u] eqn:Hr.
    + discriminate.
    + by injection Hfix.
  - simpl. rewrite Hc. exact Hfix.
Qed.

Lemma strip_idemp s : strip (strip s) = strip s.
Proof.
  unfold strip.
  rewrite (rstrip_lstrip_fixed (rstrip s)) by apply rstrip_idemp.
  apply lstrip_idemp.
Qed.

Lemma strip_empty : strip "" = "".
Proof. done. Qed.

End PyStrFacts.

(** * The statement scanner *)

Module ScanFacts.
Import PyStr.

Lemma prefix_ci_app p : ∀ s rest t,
  prefix_ci p s = Some rest → prefix_ci p (s +:+ t) = Some (rest +:+ t).
Proof.
  induction p as [|a p IH]; intros s rest t; simpl.
  - by intros [= ->].
  - destruct s as [|b s]; [done|]. simpl. destruct (eqb_ci a b); [apply IH|done].
Qed.

(** [split_ci] cuts the text at an occurrence of the pattern. *)
Lemma split_ci_parts p : ∀ s before after,
  split_ci p s = Some (before, after) →
  ∃ m, s = before +:+ m ∧ prefix_ci p m = Some after.
Proof.
  intros s. induction s as [|c s IH]; intros before after.
  - cbn [split_ci]. destruct (prefix_ci p "") eqn:Hp; [|done].
    intros [= <- <-]. by exists "".
  - cbn [split_ci]. destruct (prefix_ci p (String c s)) eqn:Hp.
    + intros [= <- <-]. by exists (String c s).
    + destruct (split_ci p s) as [[b a]|] eqn:Hs; [|done].
      intros [= <- <-]. destruct (IH b a eq_refl) as (m & -> & Hm).
      by exists m.
Qed.

(** The occurrence is the leftmost one: the text before it holds none. *)
Lemma split_ci_leftmost p : ∀ s before after,
  p ≠ "" →
  split_ci p s = Some (before, after) → contains_ci p before = false.
Proof.
  intros s. induction s as [|c s IH]; intros before after Hne.
  - cbn [split_ci]. destruct (prefix_ci p "") eqn:Hp; [|done].
    intros [= <- <-]. unfold contains_ci. cbn [split_ci].
    by destruct p.
  - cbn [split_ci]. destruct (prefix_ci p (String c s)) eqn:Hp.
    + intros [= <- <-]. unfold contains_ci. cbn [split_ci]. by destruct p.
    + destruct (split_ci p s) as [[b a]|] eqn:Hs; [|done].
      intros [= <- <-]. specialize (IH b a Hne eq_refl).
      destruct (split_ci_parts p s b a Hs) as (m & -> & Hm).
      unfold contains_ci in *. cbn [split_ci].
      destruct (prefix_ci p (String c b)) eqn:Hpb.
      { apply (prefix_ci_app _ _ _ m) in Hpb.
        change (String c b +:+ m) with (String c (b +:+ m)) in Hpb. congruence. }
      by destruct (split_ci p b) as [[]|].
Qed.

Lemma prefix_ci_length p : ∀ s rest,
  prefix_ci p s = Some rest → String.length s = (String.length p + String.length rest)%nat.
Proof.
  induction p as [|a p IH]; intros s rest; simpl.
  - by intros [= ->].
  - destruct s as [|b s]; [done|]. simpl. destruct (eqb_ci a b); [|done].
    intros Hp. by rewrite (IH _ _ Hp).
Qed.

Lemma length_append (s t : string) :
  String.length (s +:+ t) = (String.length s + String.length t)%nat.
Proof. induction s as [|c s IH]; simpl; [done|]. by rewrite IH. Qed.

Lemma split_ci_length p : ∀ s before after,
  split_ci p s = Some (before, after) →
  String.length s = (String.length before + String.length p + String.length after)%nat.
Proof.
  intros s before after (m & -> & Hm)%split_ci_parts.
  rewrite length_append, (prefix_ci_length _ _ _ Hm). lia.
Qed.

(** A block [re.findall] returns holds no closing marker: the match of
    [.*?] is the shortest one. *)
Lemma findall_go_blocks n : ∀ text b,
  b ∈ Ofx.findall_go n text → contains_ci "</STMTTRN>" b = false.
Proof.
  induction n as [|n IH]; intros text b; cbn [Ofx.findall_go].
  - by intros ?%elem_of_nil.
  - destruct text as [|c text]; [by intros ?%elem_of_nil|].
    destruct (prefix_ci "<STMTTRN>" (String c text)) as [rest|].
    + destruct (split_ci "</STMTTRN>" rest) as [[block rest']|] eqn:Hs;
        [|by intros ?%elem_of_nil].
      intros [->|Hb]%elem_of_cons; [|by eapply IH].
      by eapply split_ci_leftmost.
    + apply IH.
Qed.

(** The fuel never runs out: any amount from the length of the text on gives
    the same blocks. *)
Lemma findall_go_fuel n : ∀ m text,
  (String.length text ≤ n)%nat → (String.length text ≤ m)%nat →
  Ofx.findall_go n text = Ofx.findall_go m text.
Proof.
  induction n as [|n IH]; intros m text Hn Hm.
  - destruct text; [|simpl in Hn; lia]. by destruct m.
  - destruct m as [|m]; [destruct text; [done|simpl in Hm; lia]|].
    cbn [Ofx.findall_go]. destruct text as [|c text]; [done|].
    simpl in Hn, Hm.
    destruct (prefix_ci "<STMTTRN>" (String c text)) as [rest|] eqn:Hp.
    + apply prefix_ci_length in Hp. simpl in Hp.
      destruct (split_ci "</STMTTRN>" rest) as [[block rest']|] eqn:Hs; [|done].
      apply split_ci_length in Hs. f_equal. apply IH; lia.
    + apply IH; lia.
Qed.

End ScanFacts.

(** * The import scripts *)

Section ImportFacts.
Context `{Library}.

Lemma itau_parse_nil text :
  Itau._parse_ofx_sgml text = [] ↔ Ofx.findall_stmttrn text = [].
Proof.
  unfold Itau._parse_ofx_sgml. split.
  - apply fmap_nil_inv.
  - by intros ->.
Qed.

Lemma nubank_parse_nil text :
  Nubank._parse_ofx_sgml text = [] ↔ Ofx.findall_stmttrn text = [].
Proof.
  unfold Nubank._parse_ofx_sgml. split.
  - apply fmap_nil_inv.
  - by intros ->.
Qed.

Lemma itau_import_raises name text e :
  Itau.import_itau_ofx name text = Raise e →
  e = Ofx.no_transactions ∧ Ofx.findall_stmttrn text = [].
Proof.
  unfold Itau.import_itau_ofx.
  destruct (Itau._parse_ofx_sgml text) eqn:Hp; [|discriminate].
  intros [= <-]. split; [done|]. by apply itau_parse_nil.
Qed.

Lemma nubank_import_raises name text e :
  Nubank.import_nubank_ofx name text = Raise e →
  e = Ofx.no_transactions ∧ Ofx.findall_stmttrn text = [].
Proof.
  unfold Nubank.import_nubank_ofx.
  destruct (Nubank._parse_ofx_sgml text) eqn:Hp; [|discriminate].
  intros [= <-]. split; [done|]. by apply nubank_parse_nil.
Qed.

Lemma itau_import_empty name text :
  Ofx.findall_stmttrn text = [] →
  Itau.import_itau_ofx name text = Raise Ofx.no_transactions.
Proof.
  intros Hb. unfold Itau.import_itau_ofx.
  by rewrite (proj2 (itau_parse_nil text) Hb).
Qed.

Lemma nubank_import_empty name text :
  Ofx.findall_stmttrn text = [] →
  Nubank.import_nubank_ofx name text = Raise Ofx.no_transactions.
Proof.
  intros Hb. unfold Nubank.import_nubank_ofx.
  by rewrite (proj2 (nubank_parse_nil text) Hb).
Qed.

(** C5.  A statement text in which no transaction block is found makes the
    import fail with the empty-statement error (the [ValueError] both
    scripts raise), and it fails with it only then; the failure returns no
    frame, and a [main] run on such a file leaves the files as they were. *)
Theorem empty_statement_aborts_import (name text : string) :
  (Itau.import_itau_ofx name text = Raise Ofx.no_transactions
     ↔ Ofx.findall_stmttrn text = [])
  ∧ (Nubank.import_nubank_ofx name text = Raise Ofx.no_transactions
     ↔ Ofx.findall_stmttrn text = [])
  ∧ (Ofx.findall_stmttrn text = [] →
     ∀ files fs,
       (pick Itau.is_itau_name files = Some (name, text) →
        Itau.main files fs = (Raise Ofx.no_transactions, fs))
       ∧ (pick Nubank.is_nubank_name files = Some (name, text) →
          Nubank.main files fs = (Raise Ofx.no_transactions, fs))).
Proof.
  split; [|split].
  - split; [intros He; by apply itau_import_raises in He as [_ ?]|].
    apply itau_import_empty.
  - split; [intros He; by apply nubank_import_raises in He as [_ ?]|].
    apply nubank_import_empty.
  - intros Hb files fs. split; intros Hp.
    + unfold Itau.main. rewrite Hp. unfold io_bind, io_lift.
      by rewrite itau_import_empty.
    + unfold Nubank.main. rewrite Hp. unfold io_bind, io_lift.
      by rewrite nubank_import_empty.
Qed.


Lemma filter_fmap_list {A B} (f : A → B) (p : B → bool) (l : list A) :
  filter (λ y, p y = true) (f <$> l) = f <$> filter (λ x, p (f x) = true) l.
Proof.
  induction l as [|x l IH]; [done|].
  rewrite fmap_cons, !filter_cons, IH. by destruct (decide (p (f x) = true)).
Qed.

Lemma filter_ext_bool {A} (p q : A → bool) (l : list A) :
  (∀ x, p x = q x) → filter (λ x, p x = true) l = filter (λ x, q x = true) l.
Proof.
  intros Hpq. induction l as [|x l IH]; [done|].
  rewrite !filter_cons, IH. repeat case_decide; rewrite ?Hpq in *; congruence.
Qed.

(** Both imports are a filter and a map over the field maps, in file order. *)
Lemma itau_standardize_rows name l :
  rows (Itau.standardize name l)
  = Itau.ledger_row name <$> filter (λ b, Ofx.survives b = true) l.
Proof.
  unfold Itau.standardize. cbn [rows setitem_rowwise dropna].
  rewrite zip_with_fmap_l, zip_with_fmap_r, zip_with_diag.
  rewrite filter_fmap_list, <-!list_fmap_compose.
  rewrite (filter_ext_bool _ Ofx.survives).
  - done.
  - intros b. unfold Ofx.survives, Itau.fill_external_id. simpl.
    case_match; rewrite andb_true_r; reflexivity.
Qed.

Lemma nubank_standardize_rows name l :
  rows (Nubank.standardize name l)
  = Nubank.ledger_row name <$> filter (λ b, Ofx.survives b = true) l.
Proof.
  unfold Nubank.standardize. cbn [rows setitem_rowwise dropna].
  rewrite filter_fmap_list, <-!list_fmap_compose.
  rewrite (filter_ext_bool _ Ofx.survives).
  - done.
  - intros b. unfold Ofx.survives. simpl. rewrite andb_true_r. reflexivity.
Qed.

Lemma itau_import_ok name text out :
  Itau.import_itau_ofx name text = Ok out →
  out = Itau.standardize name (Itau._parse_ofx_sgml text).
Proof.
  unfold Itau.import_itau_ofx.
  destruct (Itau._parse_ofx_sgml text); [discriminate|]. by intros [= <-].
Qed.

Lemma nubank_import_ok name text out :
  Nubank.import_nubank_ofx name text = Ok out →
  out = Nubank.standardize name (Nubank._parse_ofx_sgml text).
Proof.
  unfold Nubank.import_nubank_ofx.
  destruct (Nubank._parse_ofx_sgml text); [discriminate|]. by intros [= <-].
Qed.

Lemma tag_trimmed blk name : PyStr.strip (Ofx.tag blk name) = Ofx.tag blk name.
Proof.
  unfold Ofx.tag. destruct (Ofx.tag_search name blk); [|done].
  apply PyStrFacts.strip_idemp.
Qed.

Lemma str_or_trimmed x y :
  PyStr.strip x = x → PyStr.strip y = y → PyStr.strip (Ofx.str_or x y) = Ofx.str_or x y.
Proof. unfold Ofx.str_or. by case_bool_decide. Qed.

Lemma str_cell_insert k k' v (m : gmap string string) :
  str_cell k (<[k' := v]> m) = if decide (k' = k) then v else str_cell k m.
Proof. unfold str_cell. rewrite lookup_insert. by case_decide. Qed.

Lemma trimmed_insert k v (m : gmap string string) :
  PyStr.strip v = v → trimmed m → trimmed (<[k := v]> m).
Proof.
  intros Hv Hm k'. rewrite str_cell_insert. case_decide; [done|apply Hm].
Qed.

Lemma trimmed_empty : trimmed ∅.
Proof. intros k. unfold str_cell. by rewrite lookup_empty. Qed.

Lemma itau_parse_trimmed text b : b ∈ Itau._parse_ofx_sgml text → trimmed b.
Proof.
  unfold Itau._parse_ofx_sgml. intros (blk & -> & _)%list_elem_of_fmap.
  repeat (apply trimmed_insert;
          [first [apply tag_trimmed | apply str_or_trimmed; apply tag_trimmed]|]).
  apply trimmed_empty.
Qed.

Lemma nubank_parse_trimmed text b : b ∈ Nubank._parse_ofx_sgml text → trimmed b.
Proof.
  unfold Nubank._parse_ofx_sgml. intros (blk & -> & _)%list_elem_of_fmap.
  repeat (apply trimmed_insert;
          [first [apply tag_trimmed | apply str_or_trimmed; apply tag_trimmed]|]).
  apply trimmed_empty.
Qed.

Lemma sep_join_degenerate (x y : string) :
  x +:+ "|" +:+ y = "|" ↔ x = "" ∧ y = "".
Proof.
  split.
  - destruct x as [|a x]; simpl.
    + intros [= Hy]. simpl in Hy. by subst.
    + intros [= -> Hx]. by destruct x.
  - by intros [-> ->].
Qed.

Lemma sep_join_nonempty (x y : string) : x +:+ "|" +:+ y ≠ "".
Proof. by destruct x. Qed.


Lemma itau_out_row_cells name b :
  cell "date" (Itau.out_row name b) = Ofx._coerce_date (str_cell "DTPOSTED" b)
  ∧ cell "description" (Itau.out_row name b) = VStr (PyStr.strip (str_cell "MEMO" b))
  ∧ cell "amount" (Itau.out_row name b) = Ofx._coerce_amount (str_cell "TRNAMT" b)
  ∧ cell "external_id" (Itau.out_row name b) = VStr (PyStr.strip (str_cell "FITID" b)).
Proof. done. Qed.

Lemma cell_insert c c' v (r : Row) :
  cell c (<[c' := v]> r) = if decide (c' = c) then v else cell c r.
Proof. unfold cell. rewrite lookup_insert. by case_decide. Qed.

Lemma cell_insert_ne c c' v (r : Row) : c' ≠ c → cell c (<[c' := v]> r) = cell c r.
Proof. intros. rewrite cell_insert. by case_decide. Qed.

Lemma cell_insert_eq c v (r : Row) : cell c (<[c := v]> r) = v.
Proof. rewrite cell_insert. by case_decide. Qed.

Lemma itau_fill_external_id name b :
  Itau.fill_external_id (Itau.fallback b) (Itau.out_row name b)
  = if bool_decide (PyStr.strip (str_cell "FITID" b) = "")
    then <["external_id" := VStr (Itau.fallback b)]> (Itau.out_row name b)
    else Itau.out_row name b.
Proof. done. Qed.

(** The key the Itaú import hashes, for a trimmed field map. *)
Lemma itau_tx_key name b :
  trimmed b →
  let r := Itau.ledger_row name b in
  cell "tx_id" r
  = Ofx.tx_id_of_key
      (code_key_material true (str_cell "FITID" b) (str_cell "REFNUM" b)
         (str_cell "CHECKNUM" b) (astype_str (cell "date" r)) (str_cell "MEMO" b)
         (astype_str (cell "amount" r)) "itau").
Proof.
  intros Hb r. unfold r, Itau.ledger_row.
  rewrite cell_insert_eq. f_equal.
  rewrite !(cell_insert_ne _ "tx_id"), !(cell_insert_ne _ "type") by done.
  unfold Itau.tx_key.
  rewrite !(cell_insert_ne _ "type") by done.
  rewrite itau_fill_external_id, Hb.
  destruct (itau_out_row_cells name b) as (Hd & Hdesc & Ha & He).
  unfold code_key_material.
  destruct (bool_decide (str_cell "FITID" b = "")) eqn:Hf.
  - rewrite cell_insert_eq, !cell_insert_ne by done.
    rewrite Hdesc, Hb. unfold Itau.fallback. rewrite !Hb. cbn [Ofx.fillna isna astype_str py_str Ofx.eq_str negb andb orb].
    rewrite (bool_decide_ext _ _ (sep_join_degenerate _ _)).
    rewrite (bool_decide_eq_false_2 _ (sep_join_nonempty _ _)).
    rewrite bool_decide_and. cbn [orb].
    by destruct (bool_decide (str_cell "REFNUM" b = "")), (bool_decide (str_cell "CHECKNUM" b = "")).
  - rewrite He, Hdesc, !Hb. cbn [Ofx.fillna isna astype_str py_str Ofx.eq_str negb andb orb].
    rewrite Hf. cbn [orb].
    by destruct (bool_decide (str_cell "FITID" b = "|")).
Qed.

Lemma nubank_out_row_cells name b :
  cell "date" (Nubank.out_row name b) = Ofx._coerce_date (str_cell "DTPOSTED" b)
  ∧ cell "description" (Nubank.out_row name b) = VStr (PyStr.strip (str_cell "MEMO" b))
  ∧ cell "amount" (Nubank.out_row name b) = Ofx._coerce_amount (str_cell "TRNAMT" b)
  ∧ cell "external_id" (Nubank.out_row name b) = VStr (PyStr.strip (str_cell "FITID" b)).
Proof. done. Qed.

(** The key the Nubank import hashes, for a trimmed field map. *)
Lemma nubank_tx_key name b :
  trimmed b →
  let r := Nubank.ledger_row name b in
  cell "tx_id" r
  = Ofx.tx_id_of_key
      (code_key_material false (str_cell "FITID" b) (str_cell "REFNUM" b)
         (str_cell "CHECKNUM" b) (astype_str (cell "date" r)) (str_cell "MEMO" b)
         (astype_str (cell "amount" r)) "nubank").
Proof.
  intros Hb r. unfold r, Nubank.ledger_row.
  rewrite cell_insert_eq. f_equal.
  rewrite !(cell_insert_ne _ "tx_id"), !(cell_insert_ne _ "type") by done.
  unfold Nubank.tx_key.
  rewrite !(cell_insert_ne _ "type") by done.
  destruct (nubank_out_row_cells name b) as (Hd & Hdesc & Ha & He).
  unfold code_key_material.
  rewrite He, Hdesc, !Hb.
  cbn [Ofx.fillna isna astype_str py_str Ofx.eq_str negb andb orb].
  by destruct (bool_decide (str_cell "FITID" b = "")).
Qed.

(** Where the key of the code and the key of the specification agree. *)
Lemma code_key_is_spec_key (secondary : bool)
    (fitid refnum checknum date description amount source : string) :
  (secondary = true → fitid ≠ "|") →
  code_key_material secondary fitid refnum checknum date description amount source
  = spec_key_material secondary fitid refnum checknum date description amount source.
Proof.
  intros Hsep. unfold code_key_material, spec_key_material.
  destruct (bool_decide (fitid = "")) eqn:Hf; simpl.
  - by rewrite andb_true_r.
  - destruct secondary; simpl; [|done].
    by rewrite bool_decide_eq_false_2 by auto.
Qed.

Lemma tx_id_of_key_range key :
  ∃ n, 0 ≤ n < 2 ^ 64 ∧ Ofx.tx_id_of_key key = VStr (pretty n)
       ∧ n = hash_pandas_object key `mod` 2 ^ 64.
Proof.
  eexists. split; [|split; reflexivity].
  apply Z.mod_pos_bound. lia.
Qed.

(** C4 (amended).  Both imports return, in file order, one row per field
    map that has a date and an amount.  The [tx_id] of the row is the decimal
    string of a number below 2^64, the hash of the key material; the key
    material is the primary external reference when it is not empty, else
    (Itaú) [refnum|checknum] unless both parts are blank, else
    [date|description|amount|source] -- with one exception in the Itaú
    import, where a primary reference that is exactly ["|"] is set aside and
    the composite key is used.  Away from that exception the key is the one
    the specification words. *)
Theorem tx_id_key_material (name text : string) :
  (∀ out, Itau.import_itau_ofx name text = Ok out →
     rows out = Itau.ledger_row name
                  <$> filter (λ b, Ofx.survives b = true) (Itau._parse_ofx_sgml text))
  ∧ (∀ b, b ∈ Itau._parse_ofx_sgml text →
       let r := Itau.ledger_row name b in
       ∃ n, 0 ≤ n < 2 ^ 64 ∧ cell "tx_id" r = VStr (pretty n)
         ∧ n = hash_pandas_object
                 (code_key_material true (str_cell "FITID" b) (str_cell "REFNUM" b)
                    (str_cell "CHECKNUM" b) (astype_str (cell "date" r))
                    (str_cell "MEMO" b) (astype_str (cell "amount" r)) "itau")
               `mod` 2 ^ 64)
  ∧ (∀ out, Nubank.import_nubank_ofx name text = Ok out →
       rows out = Nubank.ledger_row name
                    <$> filter (λ b, Ofx.survives b = true) (Nubank._parse_ofx_sgml text))
  ∧ (∀ b, b ∈ Nubank._parse_ofx_sgml text →
       let r := Nubank.ledger_row name b in
       ∃ n, 0 ≤ n < 2 ^ 64 ∧ cell "tx_id" r = VStr (pretty n)
         ∧ n = hash_pandas_object
                 (code_key_material false (str_cell "FITID" b) (str_cell "REFNUM" b)
                    (str_cell "CHECKNUM" b) (astype_str (cell "date" r))
                    (str_cell "MEMO" b) (astype_str (cell "amount" r)) "nubank")
               `mod` 2 ^ 64)
  ∧ (∀ secondary fitid refnum checknum date description amount source,
       (secondary = true → fitid ≠ "|") →
       code_key_material secondary fitid refnum checknum date description amount source
       = spec_key_material secondary fitid refnum checknum date description amount
           source).
Proof.
  split; [|split; [|split; [|split]]].
  - intros out ->%itau_import_ok. apply itau_standardize_rows.
  - intros b Hb r. unfold r.
    rewrite (itau_tx_key name b (itau_parse_trimmed _ _ Hb)).
    apply tx_id_of_key_range.
  - intros out ->%nubank_import_ok. apply nubank_standardize_rows.
  - intros b Hb r. unfold r.
    rewrite (nubank_tx_key name b (nubank_parse_trimmed _ _ Hb)).
    apply tx_id_of_key_range.
  - apply code_key_is_spec_key.
Qed.

End ImportFacts.

(** C4, counterexample.  An Itaú block whose primary reference is ["|"]:
    the reference is not empty, so the key of the specification is ["|"],
    yet the [tx_id] of the imported row is the hash of the composite key. *)
Lemma separator_fitid_counterexample :
  (λ b, (str_cell "FITID" b, str_cell "REFNUM" b, str_cell "CHECKNUM" b))
    <$> Itau._parse_ofx_sgml Examples.pipe_statement = [("|", "", "")]
  ∧ result_column "tx_id"
      (Itau.import_itau_ofx (H := Demo.lib) "a.ofx" Examples.pipe_statement)
    = [Ofx.tx_id_of_key (H := Demo.lib) "2024-01-15|X|10.0|itau"]
  ∧ spec_key_material true "|" "" "" "2024-01-15" "X" "10.0" "itau" = "|"
  ∧ Ofx.tx_id_of_key (H := Demo.lib) "2024-01-15|X|10.0|itau"
    ≠ Ofx.tx_id_of_key (H := Demo.lib) "|".
Proof.
  split; [|split; [|split]].
  - by vm_compute.
  - by vm_compute.
  - by vm_compute.
  - vm_compute. discriminate.
Qed.

(** * Decimal identifiers

    A [tx_id] is printed by [pretty]; [read_csv] reads it back as an integer
    literal. *)

Module PrettyFacts.
Import PyStr.

Lemma is_digit_pretty_N_char x : is_digit (pretty_N_char x) = true.
Proof. unfold pretty_N_char. by repeat case_match. Qed.

Lemma digit_value_pretty_N_char x :
  (x < 10)%N → N.of_nat (nat_of_ascii (pretty_N_char x) - 48) = x.
Proof.
  intros Hx.
  assert (x = 0 ∨ x = 1 ∨ x = 2 ∨ x = 3 ∨ x = 4 ∨ x = 5 ∨ x = 6 ∨ x = 7 ∨ x = 8 ∨ x = 9)%N
    as Hc by lia.
  repeat (destruct Hc as [->|Hc]; [reflexivity|]). by subst.
Qed.

Lemma all_digits_pretty_N_go x : ∀ s,
  all_digits s = true → all_digits (pretty_N_go x s) = true.
Proof.
  induction (N.lt_wf_0 x) as [x _ IH]; intros s Hs.
  assert (x = 0 ∨ 0 < x)%N as [->|Hx] by lia; [by rewrite pretty_N_go_0|].
  rewrite pretty_N_go_step by done. apply IH; [by apply N.div_lt|].
  cbn [all_digits]. by rewrite is_digit_pretty_N_char.
Qed.

Lemma pretty_N_go_nonempty x : ∀ s, s ≠ "" → pretty_N_go x s ≠ "".
Proof.
  induction (N.lt_wf_0 x) as [x _ IH]; intros s Hs.
  assert (x = 0 ∨ 0 < x)%N as [->|Hx] by lia; [by rewrite pretty_N_go_0|].
  rewrite pretty_N_go_step by done. apply IH; [by apply N.div_lt|done].
Qed.

(** The digits of [x] put before [s] are read first. *)
Lemma digits_value_pretty_N_go x : ∀ s acc,
  digits_value acc (pretty_N_go x s)
  = digits_value (digits_value acc (pretty_N_go x "")) s.
Proof.
  induction (N.lt_wf_0 x) as [x _ IH]; intros s acc.
  assert (x = 0 ∨ 0 < x)%N as [->|Hx] by lia; [by rewrite !pretty_N_go_0|].
  assert (x `div` 10 < x)%N as Hlt by by apply N.div_lt.
  rewrite !(pretty_N_go_step x) by done.
  rewrite (IH _ Hlt). by rewrite (IH _ Hlt (String _ "")).
Qed.

Lemma digits_value_pretty_N x : digits_value 0 (pretty_N_go x "") = x.
Proof.
  induction (N.lt_wf_0 x) as [x _ IH].
  assert (x = 0 ∨ 0 < x)%N as [->|Hx] by lia; [done|].
  rewrite pretty_N_go_step, digits_value_pretty_N_go by done.
  rewrite IH by by apply N.div_lt.
  cbn [digits_value]. rewrite digit_value_pretty_N_char by by apply N.mod_lt.
  symmetry. rewrite N.add_comm. rewrite N.mul_comm at 1.
  rewrite (N.div_mod x 10) at 1 by done. lia.
Qed.

(** A string of digits is an integer literal. *)
Lemma digits_literal s :
  all_digits s = true → s ≠ "" →
  is_int_literal s = true ∧ int_of_literal s = Z.of_N (digits_value 0 s).
Proof.
  destruct s as [|c s]; [done|]. cbn [all_digits]. intros [Hc Hs]%andb_true_iff _.
  destruct c as [[] [] [] [] [] [] [] []]; try discriminate Hc;
    (split; [unfold is_int_literal; cbn [all_digits]; by rewrite Hs|reflexivity]).
Qed.

(** The printed form of a natural number is read back as that number. *)
Lemma pretty_literal (n : Z) :
  0 ≤ n → is_int_literal (pretty n) = true ∧ int_of_literal (pretty n) = n.
Proof.
  intros Hn. destruct n as [|p|p]; [done| |lia].
  change (pretty (Z.pos p)) with (pretty_N_go (N.pos p) "").
  destruct (digits_literal (pretty_N_go (N.pos p) "")) as [Hl Hv].
  - by apply all_digits_pretty_N_go.
  - rewrite pretty_N_go_step by done. by apply pretty_N_go_nonempty.
  - split; [done|]. rewrite Hv, digits_value_pretty_N. done.
Qed.

End PrettyFacts.

(** * The ledger merge *)

Section MergeFacts.
Context `{Library}.

(** ** Frames and files, cell by cell *)

Lemma lookup_tabulate {V} (f : string → V) (cols : list string) (c : string) :
  (list_to_map ((λ c, (c, f c)) <$> cols) : gmap string V) !! c
  = if bool_decide (c ∈ cols) then Some (f c) else None.
Proof.
  induction cols as [|c' cols IH]; [done|].
  cbn [fmap list_fmap list_to_map foldr fst snd]. rewrite lookup_insert.
  rewrite (bool_decide_ext _ _ (elem_of_cons cols c c')), bool_decide_or.
  destruct (decide (c' = c)) as [->|Hne].
  - by rewrite bool_decide_eq_true_2.
  - rewrite IH. rewrite (bool_decide_eq_false_2 (c = c')) by congruence. done.
Qed.

Lemma elem_of_add_column c c' cols : c ∈ add_column c' cols ↔ c ∈ cols ∨ c = c'.
Proof.
  unfold add_column. case_bool_decide as Hin.
  - split; [auto|]. intros [?| ->]; done.
  - rewrite elem_of_app, list_elem_of_singleton. done.
Qed.

Lemma has_column_add c c' v d :
  has_column c (setitem_scalar c' v d) = has_column c d || bool_decide (c = c').
Proof.
  unfold has_column, setitem_scalar. cbn [columns].
  rewrite (bool_decide_ext _ _ (elem_of_add_column _ _ _)).
  by rewrite bool_decide_or.
Qed.

(** ** What the loop body does to the frame behind the reference *)

Lemma cell_reindex c cols r : c ∈ cols → cell c (reindex cols r) = cell c r.
Proof.
  intros Hc. unfold reindex, cell at 1. rewrite lookup_tabulate.
  by rewrite bool_decide_eq_true_2.
Qed.

(** What [to_csv] writes under a column and what [read_csv] reads there. *)
Lemma column_to_csv c d :
  c ∈ columns d →
  str_cell c <$> body (to_csv d) = (λ r, csv_text (cell c r)) <$> rows d.
Proof.
  intros Hc. unfold to_csv. cbn [body]. rewrite <-list_fmap_compose.
  apply list_fmap_ext. intros _ r _. simpl. unfold str_cell.
  rewrite lookup_tabulate. by rewrite bool_decide_eq_true_2.
Qed.

Lemma column_read_csv c dtype csv :
  c ∈ header csv →
  cell c <$> rows (read_csv dtype csv)
  = read_cell (bool_decide (c ∈ dtype)) (int_column (str_cell c <$> body csv))
      <$> (str_cell c <$> body csv).
Proof.
  intros Hc. unfold read_csv. cbn [rows]. rewrite <-!list_fmap_compose.
  apply list_fmap_ext. intros _ b _. simpl. unfold cell.
  rewrite lookup_tabulate. by rewrite bool_decide_eq_true_2.
Qed.

(** ** drop_duplicates *)

Lemma dup_eqb_plain v w : plain v → dup_eqb v w = true ↔ v = w.
Proof.
  destruct v; try done; intros _; destruct w; simpl;
    rewrite ?bool_decide_eq_true; split; congruence.
Qed.

Lemma existsb_dup_eqb v seen : plain v → existsb (dup_eqb v) seen = true ↔ v ∈ seen.
Proof.
  intros Hv. rewrite existsb_exists. setoid_rewrite <-list_elem_of_In. split.
  - intros (w & Hw & ->%dup_eqb_plain); done.
  - intros Hin. exists v. split; [done|]. by apply dup_eqb_plain.
Qed.

Lemma drop_dups_app c l1 : ∀ seen l2,
  drop_dups c seen (l1 ++ l2)
  = drop_dups c seen l1
    ++ drop_dups c (seen ++ (cell c <$> drop_dups c seen l1)) l2.
Proof.
  induction l1 as [|r l1 IH]; intros seen l2; cbn [app drop_dups fmap list_fmap].
  - by rewrite app_nil_r.
  - destruct (existsb _ seen); [apply IH|].
    cbn [app fmap list_fmap]. rewrite IH. by rewrite <-app_assoc.
Qed.


Lemma drop_dups_fmap_on c (f : Row → Row) rs : ∀ seen,
  Forall (λ r, cell c (f r) = cell c r) rs →
  drop_dups c seen (f <$> rs) = f <$> drop_dups c seen rs.
Proof.
  induction rs as [|r rs IH]; intros seen Hf; [done|].
  apply Forall_cons in Hf as [Hr Hf].
  cbn [fmap list_fmap drop_dups]. rewrite Hr.
  destruct (existsb _ seen); [by apply IH|].
  cbn [fmap list_fmap]. by rewrite IH.
Qed.

(** Rows whose keys are plain, pairwise different and not seen yet are all
    kept. *)
Lemma drop_dups_fresh c rs : ∀ seen,
  Forall plain (cell c <$> rs) →
  NoDup (cell c <$> rs) →
  (∀ v, v ∈ cell c <$> rs → v ∉ seen) →
  drop_dups c seen rs = rs.
Proof.
  induction rs as [|r rs IH]; intros seen Hp Hn Hs; [done|].
  cbn [fmap list_fmap] in *. apply Forall_cons in Hp as [Hr Hp].
  apply NoDup_cons in Hn as [Hr' Hn]. cbn [drop_dups].
  destruct (existsb _ seen) eqn:E.
  { apply existsb_dup_eqb in E; [|done]. destruct (Hs (cell c r)); [left|done]. }
  f_equal. apply IH; [done..|].
  intros v Hv [Hin|Hin%list_elem_of_singleton]%elem_of_app.
  - apply (Hs v); [by right|done].
  - by subst.
Qed.


(** What is kept has pairwise different keys, none of them seen before. *)
Lemma drop_dups_NoDup c rs : ∀ seen,
  Forall plain (cell c <$> rs) →
  NoDup (cell c <$> drop_dups c seen rs)
  ∧ ∀ v, v ∈ cell c <$> drop_dups c seen rs → v ∉ seen.
Proof.
  induction rs as [|r rs IH]; intros seen Hp.
  - split; [apply NoDup_nil_2|]. by intros v Hv%elem_of_nil.
  - cbn [fmap list_fmap] in Hp. apply Forall_cons in Hp as [Hr Hp].
    cbn [drop_dups]. destruct (existsb _ seen) eqn:E; [by apply IH|].
    destruct (IH (seen ++ [cell c r]) Hp) as [Hn Hs].
    cbn [fmap list_fmap]. split.
    + apply NoDup_cons. split; [|done].
      intros Hin. apply (Hs _ Hin). apply elem_of_app. right. by left.
    + intros v [->|Hv]%elem_of_cons.
      * intros Hin. apply existsb_dup_eqb in Hin; [congruence|done].
      * intros Hin. apply (Hs _ Hv). apply elem_of_app. by left.
Qed.

Lemma drop_dups_Forall (P : Row → Prop) c rs : ∀ seen,
  Forall P rs → Forall P (drop_dups c seen rs).
Proof.
  induction rs as [|r rs IH]; intros seen Hp; [done|].
  apply Forall_cons in Hp as [Hr Hp]. cbn [drop_dups].
  destruct (existsb _ seen); [by apply IH|].
  apply Forall_cons. split; [done|by apply IH].
Qed.

(** A key that occurs among the rows is seen already or is kept. *)
Lemma drop_dups_complete c rs : ∀ seen v,
  Forall plain (cell c <$> rs) →
  v ∈ cell c <$> rs →
  v ∈ seen ∨ v ∈ cell c <$> drop_dups c seen rs.
Proof.
  induction rs as [|r rs IH]; intros seen v Hp Hv; [by apply elem_of_nil in Hv|].
  cbn [fmap list_fmap] in Hp, Hv. apply Forall_cons in Hp as [Hr Hp].
  cbn [drop_dups]. destruct (existsb _ seen) eqn:E.
  - apply existsb_dup_eqb in E; [|done].
    apply elem_of_cons in Hv as [->|Hv]; [by left|by apply IH].
  - cbn [fmap list_fmap]. apply elem_of_cons in Hv as [->|Hv]; [right; by left|].
    destruct (IH (seen ++ [cell c r]) v Hp Hv) as [Hin|Hin].
    + apply elem_of_app in Hin as [Hin|Hin%list_elem_of_singleton]; [by left|].
      right. subst. by left.
    + right. by right.
Qed.


(** ** What an import returns *)


Lemma itau_import_frame name text df :
  Itau.import_itau_ofx name text = Ok df →
  "tx_id" ∈ columns df
  ∧ Forall (λ r, ∃ s, is_tx_id s ∧ cell "tx_id" r = VStr s) (rows df).
Proof.
  intros ->%itau_import_ok. split.
  - unfold Itau.standardize. cbn [columns setitem_rowwise dropna].
    apply elem_of_add_column. by right.
  - rewrite itau_standardize_rows, Forall_fmap. apply Forall_true.
    intros b. simpl. unfold Itau.ledger_row. rewrite cell_insert_eq.
    eexists. split; [|reflexivity].
    eexists. split; [|reflexivity]. apply Z.mod_pos_bound. lia.
Qed.

(** ** The Nubank merge *)








(** ** The Itaú merge *)

Lemma digits_not_na s : PyStr.all_digits s = true → s ≠ "" → is_na_text s = false.
Proof.
  intros Hd Hne. unfold is_na_text. apply bool_decide_eq_false_2. intros Hin.
  assert (Forall (λ v, v = "" ∨ PyStr.all_digits v = false) na_values) as Hna
    by (unfold na_values;
        repeat (apply Forall_cons; split; [first [by left|by right]|]);
        apply Forall_nil_2).
  rewrite Forall_forall in Hna. destruct (Hna s Hin); congruence.
Qed.

Lemma tx_id_not_na s : is_tx_id s → is_na_text s = false.
Proof.
  intros (n & Hn & ->). destruct (PrettyFacts.pretty_literal n) as [Hl _]; [lia|].
  destruct n as [|p|p]; [done| |lia].
  change (pretty (Z.pos p)) with (pretty_N_go (N.pos p) "").
  apply digits_not_na.
  - by apply PrettyFacts.all_digits_pretty_N_go.
  - rewrite pretty_N_go_step by done. by apply PrettyFacts.pretty_N_go_nonempty.
Qed.

(** With the string dtype the identifiers of the file come back as the
    strings they are. *)
Lemma itau_load_tx_ids csv :
  "tx_id" ∈ header csv →
  Forall is_tx_id (tx_ids csv) →
  "tx_id" ∈ columns (Itau.load_ledger csv)
  ∧ cell "tx_id" <$> rows (Itau.load_ledger csv) = VStr <$> tx_ids csv.
Proof.
  intros Hc Hl.
  assert (cell "tx_id" <$> rows (read_csv ["tx_id"; "external_id"] csv)
          = VStr <$> tx_ids csv) as Hread.
  { rewrite column_read_csv by done. fold (tx_ids csv).
    apply Forall_fmap_ext. eapply Forall_impl; [exact Hl|].
    intros s Hs. simpl. unfold read_cell. by rewrite (tx_id_not_na _ Hs). }
  unfold Itau.load_ledger. destruct (has_column "date" _); [|done].
  cbn [columns rows setitem_rowwise]. split.
  - apply elem_of_add_column. by left.
  - rewrite <-Hread, <-list_fmap_compose. apply list_fmap_ext.
    intros _ r _. simpl. by rewrite cell_insert_ne.
Qed.

(** Rows whose keys have all been seen are all dropped. *)
Lemma drop_dups_all_seen c rs : ∀ seen,
  Forall (λ r, plain (cell c r) ∧ cell c r ∈ seen) rs →
  drop_dups c seen rs = [].
Proof.
  induction rs as [|r rs IH]; intros seen Hall; [done|].
  apply Forall_cons in Hall as [[Hp Hin] Hall]. cbn [drop_dups].
  rewrite (proj2 (existsb_dup_eqb _ _ Hp) Hin). by apply IH.
Qed.

Lemma cell_str_tx_id r : cell "tx_id" (str_tx_id r) = VStr (astype_str (cell "tx_id" r)).
Proof. unfold str_tx_id. apply cell_insert_eq. Qed.

(** The frame the Itaú merge returns: the old rows and the batch, their
    identifiers cast to strings, deduplicated as one list. *)
Lemma itau_merge_rows old new_df :
  "tx_id" ∈ columns old →
  ∃ cols, "tx_id" ∈ cols
    ∧ Itau.merge_ledger (Some old) new_df
      = Ok {| columns := cols;
              rows := drop_dups "tx_id" []
                        (str_tx_id <$> ((reindex cols <$> rows old)
                                        ++ (reindex cols <$> rows new_df))) |}.
Proof.
  intros Hc. unfold Itau.merge_ledger, concat.
  set (cols := columns old ++ _).
  assert ("tx_id" ∈ cols) as Hcols by (apply elem_of_app; by left).
  exists cols. split; [done|].
  unfold getitem, has_column at 1. cbn [columns]. rewrite bool_decide_eq_true_2 by done.
  cbn [rbind]. unfold drop_duplicates, has_column, setitem_rowwise. cbn [columns rows].
  assert (add_column "tx_id" cols = cols) as ->.
  { unfold add_column. by rewrite bool_decide_eq_true_2. }
  by rewrite bool_decide_eq_true_2.
Qed.

Lemma tx_ids_plain_rows (rs : list Row) :
  Forall plain (cell "tx_id" <$> (str_tx_id <$> rs)).
Proof.
  rewrite <-list_fmap_compose, Forall_fmap. apply Forall_true.
  intros r. simpl. by rewrite cell_str_tx_id.
Qed.

Lemma py_str_plain_inj (l : list pyval) :
  Forall (λ v, ∃ s, v = VStr s) l → NoDup l → NoDup (py_str <$> l).
Proof.
  intros Hl Hn. apply NoDup_fmap_2_strong; [|done].
  rewrite Forall_forall in Hl.
  intros v w Hv Hw. destruct (Hl v Hv) as [s ->], (Hl w Hw) as [t ->]. simpl.
  by intros ->.
Qed.

(** The Itaú [append_to_ledger] on an existing ledger file never writes an
    identifier twice, whatever the file and the batch hold. *)
Theorem itau_append_no_duplicates (csv : Csv) (new_df : DataFrame) (fs fs' : FS) :
  ledger_csv fs = Some csv →
  Itau.append_to_ledger new_df fs = (Ok tt, fs') →
  ∃ csv', fs' = {| ledger_csv := Some csv'; rules_csv := rules_csv fs |}
    ∧ NoDup (tx_ids csv').
Proof.
  intros Hfs. unfold Itau.append_to_ledger. rewrite Hfs.
  cbn [fmap option_fmap option_map].
  destruct (Itau.merge_ledger _ _) as [m|e] eqn:Hm; [|discriminate].
  intros [= <-]. eexists. split; [reflexivity|].
  unfold Itau.merge_ledger, concat in Hm.
  set (cols := columns (Itau.load_ledger csv) ++ _) in Hm.
  unfold getitem, has_column at 1 in Hm. cbn [columns] in Hm.
  destruct (bool_decide ("tx_id" ∈ cols)) eqn:Hc; [|discriminate].
  apply bool_decide_eq_true in Hc.
  cbn [rbind] in Hm. unfold drop_duplicates, has_column, setitem_rowwise in Hm.
  cbn [columns rows] in Hm.
  assert (add_column "tx_id" cols = cols) as Hadd.
  { unfold add_column. by rewrite bool_decide_eq_true_2. }
  rewrite Hadd, bool_decide_eq_true_2 in Hm by done. injection Hm as <-.
  unfold tx_ids. rewrite column_to_csv by done. cbn [rows].
  fold str_tx_id.
  set (rs := (reindex cols <$> rows (Itau.load_ledger csv)) ++ _).
  destruct (drop_dups_NoDup "tx_id" (str_tx_id <$> rs) []) as [Hn _];
    [apply tx_ids_plain_rows|].
  assert ((λ r, csv_text (cell "tx_id" r)) <$> drop_dups "tx_id" [] (str_tx_id <$> rs)
          = py_str <$> (cell "tx_id" <$> drop_dups "tx_id" [] (str_tx_id <$> rs))) as ->.
  { rewrite <-list_fmap_compose. apply Forall_fmap_ext. apply drop_dups_Forall.
    rewrite Forall_fmap. apply Forall_true. intros r. simpl.
    by rewrite cell_str_tx_id. }
  apply py_str_plain_inj; [|done].
  rewrite Forall_fmap. apply drop_dups_Forall.
  rewrite Forall_fmap. apply Forall_true. intros r. simpl.
  rewrite cell_str_tx_id. by eexists.
Qed.

(** A run of the Itaú [append_to_ledger] on a ledger file without a repeated
    identifier. *)
Lemma itau_append_run (csv : Csv) (new_df : DataFrame) (fs : FS) :
  ledger_csv fs = Some csv →
  "tx_id" ∈ header csv →
  Forall is_tx_id (tx_ids csv) →
  NoDup (tx_ids csv) →
  Forall (λ r, ∃ s, cell "tx_id" r = VStr s) (rows new_df) →
  ∃ csv',
    Itau.append_to_ledger new_df fs
      = (Ok tt, {| ledger_csv := Some csv'; rules_csv := rules_csv fs |})
    ∧ tx_ids csv'
      = tx_ids csv
        ++ ((λ r, py_str (cell "tx_id" r))
              <$> drop_dups "tx_id" (VStr <$> tx_ids csv) (rows new_df)).
Proof.
  intros Hfs Hc Hl Hn Hnew.
  destruct (itau_load_tx_ids csv Hc Hl) as [Hc' Hold].
  destruct (itau_merge_rows (Itau.load_ledger csv) new_df Hc')
    as (cols & Hcols & Hmerge).
  unfold Itau.append_to_ledger. rewrite Hfs. cbn [fmap option_fmap option_map].
  rewrite Hmerge. eexists. split; [reflexivity|].
  assert (∀ r, cell "tx_id" (reindex cols r) = cell "tx_id" r) as Hre
    by (intros r; by apply cell_reindex).
  (* the cast leaves the identifiers as they are *)
  assert (∀ rs : list Row, Forall (λ r, ∃ s, cell "tx_id" r = VStr s) rs →
            cell "tx_id" <$> (str_tx_id <$> (reindex cols <$> rs)) = cell "tx_id" <$> rs)
    as Hcast.
  { intros rs Hrs. rewrite <-!list_fmap_compose. apply Forall_fmap_ext.
    eapply Forall_impl; [exact Hrs|]. intros r [s Hs]. simpl.
    by rewrite cell_str_tx_id, Hre, Hs. }
  assert (Forall (λ r, ∃ s, cell "tx_id" r = VStr s) (rows (Itau.load_ledger csv)))
    as Holds.
  { apply Forall_forall. intros r Hr.
    assert (cell "tx_id" r ∈ cell "tx_id" <$> rows (Itau.load_ledger csv)) as Hin
      by (apply list_elem_of_fmap; eauto).
    rewrite Hold in Hin. apply list_elem_of_fmap in Hin as (s & -> & _). by eexists. }
  rewrite fmap_app, drop_dups_app. cbn [app].
  rewrite (drop_dups_fresh _ (str_tx_id <$> (reindex cols <$> rows (Itau.load_ledger csv))));
    cycle 1.
  { apply tx_ids_plain_rows. }
  { rewrite (Hcast _ Holds), Hold. apply NoDup_fmap_2_strong; [|done].
    by intros ?? _ _ [= ->]. }
  { intros v _. apply not_elem_of_nil. }
  rewrite (Hcast _ Holds), Hold.
  unfold tx_ids at 1. rewrite column_to_csv by done. cbn [rows].
  rewrite fmap_app. f_equal.
  - transitivity (csv_text <$> (cell "tx_id" <$>
                    (str_tx_id <$> (reindex cols <$> rows (Itau.load_ledger csv))))).
    { exact (list_fmap_compose (cell "tx_id") csv_text _). }
    rewrite (Hcast _ Holds), Hold, <-list_fmap_compose.
    rewrite <-(list_fmap_id (tx_ids csv)) at 2. by apply list_fmap_ext.
  - assert (Forall (λ r, cell "tx_id" (str_tx_id (reindex cols r)) = cell "tx_id" r)
              (rows new_df)) as Hsame.
    { eapply Forall_impl; [exact Hnew|]. intros r [s Hs]. simpl.
      by rewrite cell_str_tx_id, Hre, Hs. }
    rewrite <-(list_fmap_compose (reindex cols) str_tx_id).
    rewrite (drop_dups_fmap_on _ (str_tx_id ∘ reindex cols)) by done.
    rewrite <-list_fmap_compose. apply Forall_fmap_ext.
    apply drop_dups_Forall.
    eapply Forall_impl; [exact Hnew|]. intros r [s Hs]. simpl.
    by rewrite cell_str_tx_id, Hre, Hs.
Qed.

(** The Itaú [append_to_ledger] on a ledger file without a repeated
    identifier keeps every old line, in its order, and adds of the batch only
    the rows whose identifier is neither in the file nor earlier in the
    batch: an identifier of the file is never added a second time. *)
Theorem itau_append_keeps_existing (csv : Csv) (new_df : DataFrame) (fs : FS) :
  ledger_csv fs = Some csv →
  "tx_id" ∈ header csv →
  Forall is_tx_id (tx_ids csv) →
  NoDup (tx_ids csv) →
  Forall (λ r, ∃ s, cell "tx_id" r = VStr s) (rows new_df) →
  ∃ csv' added,
    Itau.append_to_ledger new_df fs
      = (Ok tt, {| ledger_csv := Some csv'; rules_csv := rules_csv fs |})
    ∧ tx_ids csv' = tx_ids csv ++ added
    ∧ added = (λ r, py_str (cell "tx_id" r))
                <$> drop_dups "tx_id" (VStr <$> tx_ids csv) (rows new_df)
    ∧ ∀ s, s ∈ tx_ids csv → s ∉ added.
Proof.
  intros Hfs Hc Hl Hn Hnew.
  destruct (itau_append_run csv new_df fs Hfs Hc Hl Hn Hnew) as (csv' & Hrun & Hids).
  exists csv'. eexists. split; [done|]. split; [done|]. split; [done|].
  intros s Hs (r & -> & Hr)%list_elem_of_fmap.
  assert (Forall (λ r, ∃ s, cell "tx_id" r = VStr s)
            (drop_dups "tx_id" (VStr <$> tx_ids csv) (rows new_df))) as Hkept
    by by apply drop_dups_Forall.
  rewrite Forall_forall in Hkept. destruct (Hkept r Hr) as [t Ht].
  destruct (drop_dups_NoDup "tx_id" (rows new_df) (VStr <$> tx_ids csv)) as [_ Hfresh].
  { rewrite Forall_fmap. eapply Forall_impl; [exact Hnew|].
    intros r' [t' Ht']. simpl. by rewrite Ht'. }
  apply (Hfresh (cell "tx_id" r)); [apply list_elem_of_fmap; eauto|].
  rewrite Ht in Hs |- *. simpl in Hs. apply list_elem_of_fmap. eauto.
Qed.

(** A second run of the Itaú [main] on the same inbox leaves the identifiers
    of the ledger as the first run wrote them, each once. *)
Theorem itau_second_run_idempotent (files : list (string * string))
    (name text : string) (df : DataFrame) (fs : FS) :
  pick Itau.is_itau_name files = Some (name, text) →
  Itau.import_itau_ofx name text = Ok df →
  ledger_csv fs = None →
  ∃ csv1 csv2,
    Itau.main files fs
      = (Ok tt, {| ledger_csv := Some csv1; rules_csv := rules_csv fs |})
    ∧ Itau.main files {| ledger_csv := Some csv1; rules_csv := rules_csv fs |}
      = (Ok tt, {| ledger_csv := Some csv2; rules_csv := rules_csv fs |})
    ∧ NoDup (tx_ids csv1)
    ∧ tx_ids csv2 = tx_ids csv1.
Proof.
  intros Hpick Himp Hnone.
  destruct (itau_import_frame _ _ _ Himp) as [Hc Hrows].
  assert (Forall (λ r, ∃ s, cell "tx_id" r = VStr s) (rows df)) as Hstr.
  { eapply Forall_impl; [exact Hrows|]. intros r (s & _ & Hs). eauto. }
  set (m1 := {| columns := columns df; rows := drop_dups "tx_id" [] (rows df) |}).
  assert (Forall plain (cell "tx_id" <$> rows df)) as Hplain.
  { rewrite Forall_fmap. eapply Forall_impl; [exact Hstr|].
    intros r [s Hs]. simpl. by rewrite Hs. }
  assert (tx_ids (to_csv m1)
          = py_str <$> (cell "tx_id" <$> drop_dups "tx_id" [] (rows df))) as Hids1.
  { unfold tx_ids. rewrite column_to_csv by done. cbn [rows].
    rewrite <-list_fmap_compose.
    apply Forall_fmap_ext. apply drop_dups_Forall.
    eapply Forall_impl; [exact Hstr|]. intros r [s Hs]. simpl. by rewrite Hs. }
  assert (Itau.main files fs
          = (Ok tt, {| ledger_csv := Some (to_csv m1); rules_csv := rules_csv fs |}))
    as Hrun1.
  { unfold Itau.main. rewrite Hpick. unfold io_bind, io_lift. rewrite Himp.
    unfold Itau.append_to_ledger. rewrite Hnone. cbn [fmap option_fmap option_map].
    unfold Itau.merge_ledger, drop_duplicates, has_column.
    by rewrite bool_decide_eq_true_2. }
  assert (Forall (λ v, ∃ s, v = VStr s) (cell "tx_id" <$> drop_dups "tx_id" [] (rows df)))
    as Hkept.
  { rewrite Forall_fmap. by apply drop_dups_Forall. }
  assert (NoDup (tx_ids (to_csv m1))) as Hnd.
  { rewrite Hids1. apply py_str_plain_inj; [done|].
    by apply (drop_dups_NoDup "tx_id" (rows df) []). }
  destruct (itau_append_run (to_csv m1) df
              {| ledger_csv := Some (to_csv m1); rules_csv := rules_csv fs |})
    as (csv2 & Hrun2 & Hids2); [done|done| |done|done|].
  { rewrite Hids1, !Forall_fmap. apply drop_dups_Forall.
    eapply Forall_impl; [exact Hrows|]. intros r (s & Hs & Hr). simpl. by rewrite Hr. }
  exists (to_csv m1), csv2. split; [done|]. split.
  { unfold Itau.main. rewrite Hpick. unfold io_bind, io_lift. rewrite Himp.
    exact Hrun2. }
  split; [done|]. rewrite Hids2.
  rewrite drop_dups_all_seen; [by rewrite app_nil_r|].
  apply Forall_forall. intros r Hr. rewrite Forall_forall in Hstr.
  destruct (Hstr r Hr) as [s Hs]. split; [by rewrite Hs|].
  destruct (drop_dups_complete "tx_id" (rows df) [] (cell "tx_id" r) Hplain)
    as [Hin|Hin]; [apply list_elem_of_fmap; eauto|by apply elem_of_nil in Hin|].
  rewrite Hids1, <-list_fmap_compose.
  apply list_elem_of_fmap in Hin as (r' & Hr' & Hin).
  rewrite Hr'. apply list_elem_of_fmap. exists (cell "tx_id" r'). split.
  - rewrite Forall_forall in Hkept.
    destruct (Hkept (cell "tx_id" r')) as [t ->]; [apply list_elem_of_fmap; eauto|done].
  - apply list_elem_of_fmap. eauto.
Qed.

End MergeFacts.

(** * The rule applier *)

Section ApplyRulesFacts.
Context `{Library}.
Import Rules.

Lemma update_run l f (h : Heap) d :
  h !! l = Some d →
  update l f h = match f d with
                 | Ok d' => (Ok tt, <[l := d']> h)
                 | Raise e => (Raise e, h)
                 end.
Proof. intros Hl. unfold update. by rewrite Hl. Qed.

Lemma heap_insert_lookup l (h : Heap) d d' :
  h !! l = Some d → <[l := d']> h !! l = Some d'.
Proof. intros Hl. apply list_lookup_insert_eq. by eapply lookup_lt_Some. Qed.

(** [df.loc[m, c] = v] when the mask and the rows are computed row by row
    from the same list. *)
Lemma loc_setitem_rowwise {A} (mk : A → bool) (f : A → Row) c v cols (xs : list A) :
  loc_setitem (mk <$> xs) c v {| columns := cols; rows := f <$> xs |}
  = if bool_decide (c ∈ cols) then
      Ok {| columns := cols;
            rows := (λ x, if mk x then <[c := v]> (f x) else f x) <$> xs |}
    else match xs with
         | [] => Raise (ValueError "cannot set a frame with no defined index and a scalar")
         | _ => Ok {| columns := cols ++ [c];
                      rows := (λ x, <[c := if mk x then v else VNaN]> (f x)) <$> xs |}
         end.
Proof.
  unfold loc_setitem, has_column. cbn [columns rows].
  case_bool_decide.
  - by rewrite zip_with_fmap_l, zip_with_fmap_r, zip_with_diag.
  - destruct (f <$> xs) as [|y ys] eqn:E.
    + by apply fmap_nil_inv in E as ->.
    + rewrite <-E. destruct xs as [|x xs]; [done|].
      by rewrite zip_with_fmap_l, zip_with_fmap_r, zip_with_diag.
Qed.

Lemma bind_run {A B} (x : Py A) (k : A → Py B) h :
  bind x k h = match x h with
               | (Ok a, h') => k a h'
               | (Raise e, h') => (Raise e, h')
               end.
Proof. done. Qed.

Lemma getcol_run l c (h : Heap) d :
  h !! l = Some d → getcol l c h = (getitem c d, h).
Proof. intros Hl. unfold getcol, bind, deref, lift. by rewrite Hl. Qed.

Lemma contains_run l c (h : Heap) d :
  h !! l = Some d → contains l c h = (Ok (has_column c d), h).
Proof. intros Hl. unfold contains, bind, deref, ret. by rewrite Hl. Qed.

Lemma loc_set_run l m c v (h : Heap) d :
  h !! l = Some d →
  loc_set l m c v h = match loc_setitem m c v d with
                      | Ok d' => (Ok tt, <[l := d']> h)
                      | Raise e => (Raise e, h)
                      end.
Proof. apply update_run. Qed.

(** The mask of a rule, computed by the loop body, is [rule_mask] row by
    row. *)
Lemma mask_rowwise r rx sm d :
  r !! "regex" = Some rx →
  search_all rx (desc_of d) = Ok sm →
  zip_with andb sm (is_default <$> (cell "category" <$> rows d))
  = rule_mask r <$> rows d.
Proof.
  intros Hrx Hsm. unfold search_all in Hsm.
  destruct rx;
    try (destruct (desc_of d) eqn:Hd; [|discriminate];
         injection Hsm as <-; unfold desc_of in Hd;
         apply fmap_nil_inv, fmap_nil_inv in Hd; by rewrite Hd).
  injection Hsm as <-. unfold desc_of, rule_mask. rewrite Hrx.
  rewrite <-!list_fmap_compose, zip_with_fmap_l, zip_with_fmap_r, zip_with_diag.
  done.
Qed.

Lemma rule_step_run l (h : Heap) d r :
  h !! l = Some d →
  has_column "category" d = true →
  has_column "subcategory" d = true →
  ∀ res h',
    rule_step l (desc_of d) r h = (res, h') →
    match res with
    | Ok _ => h' = <[l := frame_step r d]> h
    | Raise _ => (∃ d', h' = <[l := d']> h) ∧ ¬ runnable d r
    end.
Proof.
  intros Hl Hcat Hsub res h'.
  unfold rule_step. rewrite bind_run. unfold lift at 1, row_getitem.
  destruct (r !! "regex") as [rx|] eqn:Hrx; cycle 1.
  { intros [= <- <-]. split; [exists d; by rewrite list_insert_id|].
    intros [[p Hp] _]. congruence. }
  case_bool_decide as Hc.
  { intros [= <- <-].
    unfold frame_step, sets_type, row_step. rewrite bool_decide_eq_true_2 by done.
    simpl. rewrite list_fmap_id. destruct d. by rewrite list_insert_id. }
  rewrite bind_run. unfold lift at 1.
  destruct (search_all rx (desc_of d)) as [sm|e] eqn:Hsm; cycle 1.
  { intros [= <- <-]. split; [exists d; by rewrite list_insert_id|].
    intros [[p Hp] _]. rewrite Hp in Hrx. injection Hrx as <-. done. }
  rewrite bind_run, (getcol_run _ _ _ _ Hl). unfold getitem. rewrite Hcat.
  rewrite (mask_rowwise r rx sm d Hrx Hsm).
  assert (l < length h)%nat as Hlt by by eapply lookup_lt_Some.
  unfold runnable, frame_step, has_column in *.
  destruct d as [cols rs]. cbn [columns rows] in *.
  rewrite bind_run, (loc_set_run _ _ _ _ _ _ Hl).
  rewrite <-(list_fmap_id rs) at 2.
  rewrite loc_setitem_rowwise, Hcat.
  rewrite bind_run, (loc_set_run _ _ _ _ _ _ (list_lookup_insert_eq _ _ _ Hlt)).
  rewrite loc_setitem_rowwise, Hsub, list_insert_insert_eq.
  unfold sets_type. rewrite (bool_decide_eq_false_2 _ Hc). cbn [negb andb].
  destruct (bool_decide (rule_hint r ∈ type_hints)) eqn:Hh; cycle 1.
  { unfold ret. cbv beta iota. intros [= <- <-].
    f_equal. f_equal. apply list_fmap_ext. intros _ x _.
    unfold row_step, assign, id, sets_type. rewrite (bool_decide_eq_false_2 _ Hc), Hh.
    simpl. by destruct (rule_mask r x). }
  cbv beta iota.
  rewrite (loc_set_run _ _ _ _ _ _ (list_lookup_insert_eq _ _ _ Hlt)).
  rewrite loc_setitem_rowwise.
  destruct (bool_decide ("type" ∈ cols)) eqn:Ht.
  - rewrite list_insert_insert_eq. intros [= <- <-].
    f_equal. f_equal; [unfold add_column; by rewrite Ht|].
    apply list_fmap_ext. intros _ x _.
    unfold row_step, assign, id, sets_type. rewrite (bool_decide_eq_false_2 _ Hc), Hh.
    simpl. by destruct (rule_mask r x).
  - destruct rs as [|x0 rs0] eqn:Hrs.
    { intros [= <- <-]. split; [eexists; reflexivity|].
      intros [_ Hrun]. destruct Hrun as [?|?]; done. }
    rewrite list_insert_insert_eq, <-Hrs. intros [= <- <-].
    f_equal. f_equal; [unfold add_column; by rewrite Ht|].
    apply list_fmap_ext. intros _ x _.
    unfold row_step, assign, id, sets_type. rewrite (bool_decide_eq_false_2 _ Hc), Hh.
    simpl. by destruct (rule_mask r x).
Qed.

(** A rule leaves the description, and the presence of the two default
    columns, as they are. *)
Lemma row_step_other ht r x c :
  c ∉ ["category"; "subcategory"; "type"] → row_step ht r x !! c = x !! c.
Proof.
  intros Hc. unfold row_step, assign.
  rewrite !not_elem_of_cons in Hc. destruct Hc as (? & ? & ? & _).
  repeat case_match; rewrite ?lookup_insert_ne by done; done.
Qed.

Lemma frame_step_desc r d : desc_of (frame_step r d) = desc_of d.
Proof.
  unfold desc_of, frame_step. cbn [rows]. rewrite <-!list_fmap_compose.
  apply list_fmap_ext. intros _ x _. simpl. unfold cell.
  rewrite row_step_other; [done|].
  rewrite !not_elem_of_cons. repeat split; try discriminate. apply not_elem_of_nil.
Qed.

Lemma frame_step_has_column c r d :
  has_column c d = true → has_column c (frame_step r d) = true.
Proof.
  unfold has_column, frame_step. cbn [columns]. intros Hc%bool_decide_eq_true.
  apply bool_decide_eq_true. destruct (sets_type r); [|done].
  apply elem_of_add_column. by left.
Qed.

Lemma frame_step_rows_nil r d : rows (frame_step r d) = [] ↔ rows d = [].
Proof.
  unfold frame_step. cbn [rows]. split; [apply fmap_nil_inv|by intros ->].
Qed.

Lemma runnable_all_cons d r rs :
  runnable_all d (r :: rs) ↔ runnable d r ∧ runnable_all (frame_step r d) rs.
Proof.
  unfold runnable_all, runnable. rewrite !Forall_cons, frame_step_rows_nil.
  split.
  - intros [[Hr Hrs] Hd]. repeat split; try done.
    + intros Hst. destruct Hd as [?|[?|[Hn _]]]; auto. congruence.
    + destruct Hd as [?|[?|[_ Hn]]]; auto using frame_step_has_column.
  - intros [[Hr Hst] [Hrs Hd]]. repeat split; try done.
    destruct (sets_type r) eqn:Hs.
    + destruct (Hst eq_refl); auto.
    + destruct Hd as [Ht|[?|?]]; auto.
      left. revert Ht. unfold has_column, frame_step. cbn [columns]. by rewrite Hs.
Qed.

Lemma for_each_run l (h : Heap) rs : ∀ d,
  h !! l = Some d →
  has_column "category" d = true →
  has_column "subcategory" d = true →
  ∀ desc res h',
    desc = desc_of d →
    for_each rs (rule_step l desc) h = (res, h') →
    match res with
    | Ok _ => h' = <[l := frame_steps rs d]> h
    | Raise _ => (∃ d', h' = <[l := d']> h) ∧ ¬ runnable_all d rs
    end.
Proof.
  revert h. induction rs as [|r rs IH]; intros h d Hl Hcat Hsub desc res h' ->.
  - intros [= <- <-]. simpl. by rewrite list_insert_id.
  - cbn [for_each]. rewrite bind_run.
    destruct (rule_step l (desc_of d) r h) as [res1 h1] eqn:Hstep.
    pose proof (rule_step_run l h d r Hl Hcat Hsub _ _ Hstep) as Hrun.
    destruct res1 as [[]|e].
    + subst h1. intros Hloop.
      assert (l < length h)%nat as Hlt by by eapply lookup_lt_Some.
      eapply (IH _ (frame_step r d)) in Hloop;
        [|by apply list_lookup_insert_eq|by apply frame_step_has_column..
         |by rewrite frame_step_desc].
      destruct res.
      * by rewrite list_insert_insert_eq in Hloop.
      * destruct Hloop as [[d' ->] Hn]. split.
        -- exists d'. by rewrite list_insert_insert_eq.
        -- rewrite runnable_all_cons. tauto.
    + intros [= <- <-]. destruct Hrun as [Hd Hn]. split; [done|].
      rewrite runnable_all_cons. tauto.
Qed.


Lemma with_defaults_has_column c d :
  has_column c (with_defaults d)
  = has_column c d || bool_decide (c = "category") || bool_decide (c = "subcategory").
Proof.
  unfold with_defaults.
  destruct (has_column "category" d) eqn:Hc;
    [destruct (has_column "subcategory" d) eqn:Hs
    |destruct (has_column "subcategory" (setitem_scalar _ _ d)) eqn:Hs];
    rewrite ?has_column_add in *;
    destruct (bool_decide (c = "category")) eqn:E1;
    destruct (bool_decide (c = "subcategory")) eqn:E2;
    try (apply bool_decide_eq_true in E1 as ->);
    try (apply bool_decide_eq_true in E2 as ->);
    rewrite ?Hc, ?Hs, ?orb_true_r, ?orb_false_r in *; try done.
Qed.

Lemma with_defaults_has_category d : has_column "category" (with_defaults d) = true.
Proof. rewrite with_defaults_has_column. by rewrite orb_true_r. Qed.

Lemma with_defaults_has_subcategory d : has_column "subcategory" (with_defaults d) = true.
Proof. rewrite with_defaults_has_column. by rewrite orb_true_r. Qed.

Lemma heap_snoc_lookup (h : Heap) d : (h ++ [d]) !! length h = Some d.
Proof. by rewrite list_lookup_middle. Qed.

Lemma heap_snoc_insert (h : Heap) d d' : <[length h := d']> (h ++ [d]) = h ++ [d'].
Proof. rewrite insert_app_r_alt by lia. by rewrite Nat.sub_diag. Qed.

(** ** apply_rules as a whole *)

(** [apply_rules] allocates one object, the copy, after the objects of the
    store; when it returns, the copy holds the frame [frame_steps] computes
    from [with_defaults]; it raises only when the frame has no description
    or some rule cannot be run. *)
Lemma apply_rules_run l (h : Heap) d rules res h' :
  h !! l = Some d →
  apply_rules l rules h = (res, h') →
  match res with
  | Ok out =>
      out = length h
      ∧ has_column "description" d = true
      ∧ h' = h ++ [frame_steps (rows rules) (with_defaults d)]
  | Raise _ =>
      (∃ d', h' = h ++ [d'])
      ∧ ¬ (has_column "description" d = true
           ∧ runnable_all (with_defaults d) (rows rules))
  end.
Proof.
  intros Hl. unfold apply_rules.
  rewrite bind_run. unfold copy at 1. rewrite Hl.
  set (l1 := length h).
  assert (∀ d0, (h ++ [d0]) !! l1 = Some d0) as Hl1 by apply heap_snoc_lookup.
  assert (∀ d0 d1, <[l1 := d1]> (h ++ [d0]) = h ++ [d1]) as Hins by apply heap_snoc_insert.
  (* the two default columns *)
  assert (∃ d1, d1 = with_defaults d) as [d1 Hd1] by eauto.
  assert (∀ k : Py nat,
    bind (contains l1 "category")
      (λ has_cat, bind (if has_cat then ret tt
                        else setitem l1 "category" (VStr "Uncategorized"))
         (λ _, bind (contains l1 "subcategory")
            (λ has_sub, bind (if has_sub then ret tt
                              else setitem l1 "subcategory" (VStr "Uncategorized"))
               (λ _, k)))) (h ++ [d])
    = k (h ++ [d1])) as ->.
  { intros k. subst d1. unfold with_defaults.
    rewrite bind_run, (contains_run _ _ _ _ (Hl1 d)).
    destruct (has_column "category" d) eqn:Hc.
    - rewrite bind_run. unfold ret at 1.
      rewrite bind_run, (contains_run _ _ _ _ (Hl1 d)).
      destruct (has_column "subcategory" d) eqn:Hs; [done|].
      rewrite bind_run. unfold setitem. rewrite (update_run _ _ _ _ (Hl1 d)).
      by rewrite Hins.
    - rewrite bind_run. unfold setitem at 1. rewrite (update_run _ _ _ _ (Hl1 d)), Hins.
      rewrite bind_run, (contains_run _ _ _ _ (Hl1 _)).
      destruct (has_column "subcategory" _) eqn:Hs; [done|].
      rewrite bind_run. unfold setitem. rewrite (update_run _ _ _ _ (Hl1 _)).
      by rewrite Hins. }
  assert (has_column "description" d1 = has_column "description" d) as Hdesc.
  { subst d1. rewrite with_defaults_has_column.
    by rewrite !bool_decide_eq_false_2, !orb_false_r by done. }
  rewrite bind_run, (getcol_run _ _ _ _ (Hl1 d1)). unfold getitem. rewrite Hdesc.
  destruct (has_column "description" d) eqn:Hd; cycle 1.
  { intros [= <- <-]. split; [by eexists|]. by intros [? _]. }
  unfold lift. rewrite bind_run.
  destruct (for_each _ _ _) as [res1 h1] eqn:Hloop.
  eapply (for_each_run l1 _ _ d1) in Hloop;
    [|apply Hl1|subst d1; apply with_defaults_has_category
     |subst d1; apply with_defaults_has_subcategory|done].
  destruct res1 as [[]|e].
  - subst h1. unfold ret. intros [= <- <-]. rewrite Hins. by subst d1.
  - destruct Hloop as [[d' ->] Hn]. intros [= <- <-]. rewrite Hins. subst d1.
    split; [by eexists|]. tauto.
Qed.

Lemma frame_step_has_type r d :
  has_column "type" (frame_step r d) = has_column "type" d || sets_type r.
Proof.
  unfold has_column, frame_step. cbn [columns].
  destruct (sets_type r); [|by rewrite orb_false_r].
  rewrite orb_true_r. apply bool_decide_eq_true, elem_of_add_column. by right.
Qed.

Lemma frame_steps_rows rs : ∀ d,
  rows (frame_steps rs d) = row_steps (has_column "type" d) rs <$> rows d.
Proof.
  induction rs as [|r rs IH]; intros d.
  - simpl. by rewrite list_fmap_id.
  - unfold frame_steps in *. cbn [foldl row_steps]. rewrite IH, frame_step_has_type.
    unfold frame_step. cbn [rows]. by rewrite <-list_fmap_compose.
Qed.

Lemma frame_steps_columns rs : ∀ d c,
  c ∈ columns (frame_steps rs d) ↔
  c ∈ columns d ∨ (c = "type" ∧ Exists (λ r, sets_type r = true) rs).
Proof.
  induction rs as [|r rs IH]; intros d c.
  - simpl. rewrite Exists_nil. tauto.
  - unfold frame_steps in *. cbn [foldl]. rewrite IH, Exists_cons.
    unfold frame_step. cbn [columns].
    destruct (sets_type r) eqn:Hs.
    + rewrite elem_of_add_column. intuition auto.
    + intuition discriminate.
Qed.

Lemma with_defaults_rows_length d : length (rows (with_defaults d)) = length (rows d).
Proof.
  unfold with_defaults.
  destruct (has_column "category" d);
    destruct (has_column "subcategory" _); cbn [rows setitem_scalar];
    by rewrite ?length_fmap.
Qed.

Lemma with_defaults_rows d : rows (with_defaults d) = default_row d <$> rows d.
Proof.
  unfold with_defaults, default_row.
  destruct (has_column "category" d) eqn:Hc.
  - destruct (has_column "subcategory" d) eqn:Hs; cbn [rows setitem_scalar].
    + by rewrite list_fmap_id.
    + done.
  - rewrite has_column_add. cbn [orb bool_decide]. rewrite orb_false_r.
    destruct (has_column "subcategory" d) eqn:Hs; cbn [rows setitem_scalar].
    + done.
    + by rewrite <-list_fmap_compose.
Qed.

Lemma default_row_present d x c : c ∈ columns d → default_row d x !! c = x !! c.
Proof.
  intros Hc. unfold default_row, has_column.
  repeat case_bool_decide; rewrite ?lookup_insert_ne; try done; by intros <-.
Qed.

Lemma default_row_other d x c :
  c ∉ ["category"; "subcategory"; "type"] → default_row d x !! c = x !! c.
Proof.
  intros Hc. unfold default_row.
  rewrite !not_elem_of_cons in Hc. destruct Hc as (? & ? & ? & _).
  repeat case_match; rewrite ?lookup_insert_ne by done; done.
Qed.

Lemma row_steps_other ht rs : ∀ x c,
  c ∉ ["category"; "subcategory"; "type"] → row_steps ht rs x !! c = x !! c.
Proof.
  revert ht. induction rs as [|r rs IH]; intros ht x c Hc; [done|].
  cbn [row_steps]. rewrite IH by done. by apply row_step_other.
Qed.

(** A rule never touches a row whose category is set. *)
Lemma row_step_categorized ht r x :
  is_default (cell "category" x) = false →
  row_step ht r x = if sets_type r && negb ht then <["type" := VNaN]> x else x.
Proof.
  intros Hx. unfold row_step, rule_mask, sets_type. rewrite Hx, andb_false_r.
  by case_bool_decide.
Qed.

Lemma row_steps_categorized ht rs : ∀ x,
  is_default (cell "category" x) = false →
  is_default (cell "category" (row_steps ht rs x)) = false
  ∧ ∀ c, (c = "type" → ht = true) → row_steps ht rs x !! c = x !! c.
Proof.
  revert ht. induction rs as [|r rs IH]; intros ht x Hx; [done|].
  cbn [row_steps]. rewrite (row_step_categorized _ _ _ Hx).
  destruct (sets_type r && negb ht) eqn:Hs.
  - destruct (IH (ht || sets_type r) (<["type" := VNaN]> x)) as [Hd Hc].
    { by rewrite cell_insert_ne. }
    split; [done|]. intros c Hty. rewrite Hc.
    + apply lookup_insert_ne. intros <-. rewrite Hty in Hs by done.
      by rewrite andb_false_r in Hs.
    + intros ->. destruct ht; [done|]. by apply andb_true_iff in Hs as [-> _].
  - destruct (IH (ht || sets_type r) x Hx) as [Hd Hc].
    split; [done|]. intros c Hty. apply Hc. intros ->. by rewrite Hty.
Qed.


(** C3.  A transaction whose category is outside the default state
    ("Uncategorized", empty, missing) comes out of [apply_rules] with every
    cell it had, whatever the rules; its category is still outside the
    default state, so the same holds on every later run. *)
Theorem categorized_rows_are_kept (h h' : Heap) (df out : nat) (d rules : DataFrame) :
  h !! df = Some d →
  apply_rules df rules h = (Ok out, h') →
  ∃ d', h' !! out = Some d'
    ∧ ∀ i x,
        rows d !! i = Some x →
        has_column "category" d = true →
        is_default (cell "category" x) = false →
        ∃ x', rows d' !! i = Some x'
          ∧ (∀ c, c ∈ columns d → x' !! c = x !! c)
          ∧ is_default (cell "category" x') = false.
Proof.
  intros Hl Hrun. apply (apply_rules_run _ _ _ _ _ _ Hl) in Hrun as (-> & Hdesc & ->).
  eexists. split; [apply heap_snoc_lookup|].
  intros i x Hi Hcat Hx.
  rewrite frame_steps_rows, with_defaults_rows, <-list_fmap_compose.
  rewrite list_lookup_fmap, Hi. eexists. split; [reflexivity|]. simpl.
  assert (default_row d x = if has_column "subcategory" d then x
                            else <["subcategory" := VStr "Uncategorized"]> x) as Hdx.
  { unfold default_row. by rewrite Hcat. }
  destruct (row_steps_categorized
              (has_column "type" (with_defaults d)) (rows rules) (default_row d x))
    as [Hd Hc].
  { rewrite Hdx. case_match; [done|]. by rewrite cell_insert_ne. }
  split; [|done].
  intros c Hin. rewrite Hc.
  - by apply default_row_present.
  - intros ->. rewrite with_defaults_has_column.
    unfold has_column. by rewrite bool_decide_eq_true_2.
Qed.

Lemma runnable_all_with_defaults d rs :
  runnable_all (with_defaults d) rs ↔ runnable_all d rs.
Proof.
  unfold runnable_all. rewrite with_defaults_has_column, with_defaults_rows.
  rewrite !bool_decide_eq_false_2, !orb_false_r by done.
  assert (default_row d <$> rows d = [] ↔ rows d = []) as ->; [|done].
  split; [apply fmap_nil_inv|by intros ->].
Qed.

(** C10.  [apply_rules] returns a new frame (a new object of the store)
    with the rows of its argument in the same number and order, every cell
    outside the columns category, subcategory and type unchanged; the frame
    it was given, and every other object of the store, is left as it was,
    also when a step raises.  It returns whenever the frame has a
    description column and every rule can be run. *)
Theorem apply_rules_frame_effect (h : Heap) (df : nat) (d rules : DataFrame) :
  h !! df = Some d →
  (∀ res h',
     apply_rules df rules h = (res, h') →
     (∀ l, (l < length h)%nat → h' !! l = h !! l)
     ∧ h' !! df = Some d
     ∧ match res with
       | Ok out =>
           out = length h
           ∧ ∃ d', h' !! out = Some d'
               ∧ length (rows d') = length (rows d)
               ∧ ∀ i x, rows d !! i = Some x →
                   ∃ x', rows d' !! i = Some x'
                     ∧ ∀ c, c ∉ ["category"; "subcategory"; "type"] → x' !! c = x !! c
       | Raise _ => True
       end)
  ∧ (has_column "description" d = true →
     runnable_all d (rows rules) →
     ∃ h', apply_rules df rules h = (Ok (length h), h')).
Proof.
  intros Hl. split.
  - intros res h' Hrun.
    apply (apply_rules_run _ _ _ _ _ _ Hl) in Hrun.
    assert (∃ d', h' = h ++ [d']) as [d' Hh'].
    { destruct res; [|by destruct Hrun]. destruct Hrun as (_ & _ & ->). by eexists. }
    assert (∀ l, (l < length h)%nat → h' !! l = h !! l) as Hframe.
    { intros l Hlt. subst h'. by apply lookup_app_l. }
    split; [done|]. split.
    { rewrite Hframe; [done|]. by eapply lookup_lt_Some. }
    destruct res as [out|e]; [|done].
    destruct Hrun as (-> & Hdesc & ->). split; [done|].
    eexists. split; [apply heap_snoc_lookup|].
    rewrite frame_steps_rows, with_defaults_rows, <-list_fmap_compose.
    split; [by rewrite length_fmap|].
    intros i x Hi. rewrite list_lookup_fmap, Hi. eexists. split; [reflexivity|].
    intros c Hc. simpl. rewrite row_steps_other by done. by apply default_row_other.
  - intros Hdesc Hrules.
    destruct (apply_rules df rules h) as [res h'] eqn:Hrun.
    pose proof (apply_rules_run _ _ _ _ _ _ Hl Hrun) as Hspec.
    destruct res as [out|e].
    + destruct Hspec as (-> & _). by eexists.
    + destruct Hspec as [_ Hn]. exfalso. apply Hn. split; [done|].
      by apply runnable_all_with_defaults.
Qed.


End ApplyRulesFacts.

(** * The rule compiler *)

Section LoadRulesFacts.
Context `{Library}.
Import Rules.

Lemma compile_all_ok ps rxs :
  compile_all ps = Ok rxs ↔ Forall (λ p, re_compiles p = true) ps ∧ rxs = VRegex <$> ps.
Proof.
  revert rxs. induction ps as [|p ps IH]; intros rxs; simpl.
  - split; [by intros [= <-]|by intros [_ ->]].
  - unfold compile. rewrite Forall_cons. destruct (re_compiles p); simpl.
    + destruct (compile_all ps) as [rxs'|e]; simpl.
      * destruct (IH rxs') as [IH1 _]. destruct (IH1 eq_refl) as [Hall ->].
        split; [by intros [= <-]|by intros [_ ->]].
      * split; [done|]. intros [[_ Hall] ->].
        destruct (IH (VRegex <$> ps)) as [_ IH2]. by specialize (IH2 (conj Hall eq_refl)).
    + split; [done|]. by intros [[? _] _].
Qed.

Lemma setitem_list_rowwise c (f : Row → pyval) d :
  setitem_list c (f <$> rows d) d
  = {| columns := add_column c (columns d); rows := (λ r, <[c := f r]> r) <$> rows d |}.
Proof.
  unfold setitem_list. f_equal. by rewrite zip_with_fmap_l, zip_with_diag.
Qed.

(** The cast of the priority column: it returns the priorities exactly when
    no cell is an infinity. *)
Lemma rmap_normalize_priority vs :
  match rmap normalize_priority vs with
  | Ok zs => zs = priority_of <$> vs
             ∧ Forall (λ v, ∃ z, normalize_priority v = Ok z) vs
  | Raise _ => ¬ Forall (λ v, ∃ z, normalize_priority v = Ok z) vs
  end.
Proof.
  induction vs as [|v vs IH]; [done|].
  cbn [rmap]. unfold priority_of at 1.
  destruct (normalize_priority v) as [z|e] eqn:Hv; cbn [rbind].
  - destruct (rmap normalize_priority vs) as [zs|e]; cbn [rbind].
    + destruct IH as [-> Hall]. split.
      * cbn [fmap list_fmap]. unfold priority_of at 1. by rewrite Hv.
      * constructor; [by eexists|done].
    + intros Hall. apply IH. by apply Forall_cons in Hall as [_ ?].
  - intros Hall. apply Forall_cons in Hall as [[z Hz] _]. congruence.
Qed.

(** [load_rules] returns exactly when the file has a priority column without
    an infinity and a pattern column whose patterns all compile; the rule
    list is then the sorted list of the normalized rules, each with its
    compiled pattern. *)
Lemma load_rules_frame_ok raw rules :
  load_rules_frame raw = Ok rules ↔
    has_column "priority" raw = true
    ∧ Forall (λ r, ∃ z, normalize_priority (cell "priority" r) = Ok z) (rows raw)
    ∧ has_column "pattern" raw = true
    ∧ Forall (λ r, re_compiles (astype_str (cell "pattern" r)) = true)
        (sort_values "priority" (norm_row <$> rows raw))
    ∧ rules = {| columns := add_column "regex" (add_column "priority" (columns raw));
                 rows := compile_row <$> sort_values "priority" (norm_row <$> rows raw) |}.
Proof.
  unfold load_rules_frame, getitem at 1.
  destruct (has_column "priority" raw) eqn:Hp; cbn [rbind];
    [|split; [done|by intros [? _]]].
  pose proof (rmap_normalize_priority (cell "priority" <$> rows raw)) as Hcast.
  destruct (rmap normalize_priority (cell "priority" <$> rows raw)) as [zs|e];
    cbn [rbind]; rewrite Forall_fmap in Hcast; cycle 1.
  { split; [done|]. by intros (_ & ? & _). }
  destruct Hcast as [-> Hfin].
  assert (VInt <$> (priority_of <$> (cell "priority" <$> rows raw))
          = (λ r, VInt (priority_of (cell "priority" r))) <$> rows raw) as ->
    by by rewrite <-!list_fmap_compose.
  rewrite setitem_list_rowwise. fold norm_row.
  unfold getitem, has_column at 1. cbn [columns rows].
  rewrite (bool_decide_ext _ _ (elem_of_add_column _ _ _)), bool_decide_or.
  rewrite (bool_decide_eq_false_2 ("pattern" = "priority")), orb_false_r by done.
  fold (has_column "pattern" raw).
  destruct (has_column "pattern" raw) eqn:Hpat; cbn [rbind];
    [|split; [done|by intros (_ & _ & ? & _)]].
  set (sorted := sort_values "priority" (norm_row <$> rows raw)).
  assert (astype_str <$> (cell "pattern" <$> sorted)
          = (λ r, astype_str (cell "pattern" r)) <$> sorted) as ->
    by by rewrite <-list_fmap_compose.
  destruct (compile_all _) as [rxs|e] eqn:Hc; cbn [rbind].
  - apply compile_all_ok in Hc as [Hall ->].
    rewrite Forall_fmap in Hall.
    assert (VRegex <$> ((λ r, astype_str (cell "pattern" r)) <$> sorted)
            = (λ r, VRegex (astype_str (cell "pattern" r))) <$> sorted) as ->
      by by rewrite <-list_fmap_compose.
    pose proof (setitem_list_rowwise "regex"
      (λ r, VRegex (astype_str (cell "pattern" r)))
      {| columns := add_column "priority" (columns raw); rows := sorted |}) as E.
    cbn [rows columns] in E. rewrite E. fold compile_row.
    split; [intros [= <-]; done|]. by intros (_ & _ & _ & _ & ->).
  - split; [done|]. intros (_ & _ & _ & Hall & _).
    assert (compile_all ((λ r, astype_str (cell "pattern" r)) <$> sorted)
            = Ok (VRegex <$> ((λ r, astype_str (cell "pattern" r)) <$> sorted))) as Hok.
    { apply compile_all_ok. split; [|done]. by rewrite Forall_fmap. }
    congruence.
Qed.

Lemma int_cell_compile_row r : int_cell "priority" (compile_row r) = int_cell "priority" r.
Proof. unfold int_cell, compile_row. by rewrite cell_insert_ne. Qed.



(** Every rule [load_rules] returns carries a compiled pattern. *)
Lemma load_rules_compiled (raw rules : DataFrame) :
  load_rules_frame raw = Ok rules →
  Forall (λ r, ∃ p, r !! "regex" = Some (VRegex p)) (rows rules).
Proof.
  intros (_ & _ & _ & _ & ->)%load_rules_frame_ok. cbn [rows].
  rewrite Forall_fmap. apply Forall_true. intros r. simpl.
  eexists. unfold compile_row. apply lookup_insert_eq.
Qed.

End LoadRulesFacts.

(** * What a rule does to a transaction *)

Section RuleOutcomes.
Context `{Library}.
Import Rules.

Lemma row_step_match ht r x :
  rule_cat r ≠ "" → rule_mask r x = true → row_step ht r x = assign r x.
Proof.
  intros Hc Hm. unfold row_step. by rewrite (bool_decide_eq_false_2 _ Hc), Hm.
Qed.

Lemma assign_cells r x :
  cell "category" (assign r x) = VStr (rule_cat r)
  ∧ cell "subcategory" (assign r x)
    = VStr (if bool_decide (rule_sub r = "") then rule_cat r else rule_sub r)
  ∧ cell "type" (assign r x)
    = (if bool_decide (rule_hint r ∈ type_hints) then VStr (rule_hint r)
       else cell "type" x)
  ∧ ∀ c, c ∉ ["category"; "subcategory"; "type"] → cell c (assign r x) = cell c x.
Proof.
  unfold assign. split; [|split; [|split]].
  - case_bool_decide; rewrite ?(cell_insert_ne _ "type"), ?(cell_insert_ne _ "subcategory") by done;
      apply cell_insert_eq.
  - case_bool_decide; rewrite ?(cell_insert_ne _ "type") by done; apply cell_insert_eq.
  - case_bool_decide; [apply cell_insert_eq|].
    by rewrite !cell_insert_ne.
  - intros c Hc. rewrite !not_elem_of_cons in Hc. destruct Hc as (? & ? & ? & _).
    case_bool_decide; rewrite !cell_insert_ne by done; done.
Qed.

Lemma default_row_cells d x :
  cell "description" (default_row d x) = cell "description" x
  ∧ cell "type" (default_row d x) = cell "type" x
  ∧ (is_default (cell "category" x) = true →
     is_default (cell "category" (default_row d x)) = true).
Proof.
  unfold default_row. split; [|split].
  - repeat case_match; by rewrite ?cell_insert_ne.
  - repeat case_match; by rewrite ?cell_insert_ne.
  - intros Hx. repeat case_match; rewrite ?(cell_insert_ne _ "subcategory") by done;
      rewrite ?cell_insert_eq; done.
Qed.

(** The row a returned [apply_rules] leaves at a position. *)
Lemma apply_rules_row (h h' : Heap) df out d rules i x :
  h !! df = Some d →
  apply_rules df rules h = (Ok out, h') →
  rows d !! i = Some x →
  ∃ d', h' !! out = Some d'
    ∧ rows d' !! i
      = Some (row_steps (has_column "type" d) (rows rules) (default_row d x)).
Proof.
  intros Hl Hrun Hi.
  apply (apply_rules_run _ _ _ _ _ _ Hl) in Hrun as (-> & _ & ->).
  eexists. split; [apply heap_snoc_lookup|].
  rewrite frame_steps_rows, with_defaults_rows, <-list_fmap_compose.
  rewrite list_lookup_fmap, Hi. simpl.
  rewrite with_defaults_has_column.
  by rewrite !bool_decide_eq_false_2, !orb_false_r by done.
Qed.

Lemma strip_nan : PyStr.strip "nan" = "nan".
Proof. reflexivity. Qed.

(** C8, the code at the failing input.  A rule whose category cell is blank
    in the rule file reaches [apply_rules] with NaN in that cell; the rule is
    not skipped: on a transaction it matches it writes the category "nan". *)
Theorem blank_category_rule_is_applied (h h' : Heap) (df out : nat)
    (d : DataFrame) (cols : list string) (r : Row) (p : string) (i : nat) (x : Row) :
  h !! df = Some d →
  rows d !! i = Some x →
  r !! "category" = Some (read_cell false false "") →
  r !! "regex" = Some (VRegex p) →
  re_search p (astype_str (cell "description" x)) = true →
  is_default (cell "category" x) = true →
  apply_rules df {| columns := cols; rows := [r] |} h = (Ok out, h') →
  ∃ d' x', h' !! out = Some d' ∧ rows d' !! i = Some x'
    ∧ cell "category" x' = VStr "nan".
Proof.
  intros Hl Hi Hcat Hrx Hre Hx Hrun.
  destruct (apply_rules_row _ _ _ _ _ _ _ _ Hl Hrun Hi) as (d' & Hd' & Hrow).
  exists d'. eexists. split; [done|]. split; [done|].
  cbn [rows row_steps].
  assert (rule_cat r = "nan") as Hc.
  { unfold rule_cat, row_get. by rewrite Hcat. }
  destruct (default_row_cells d x) as (Hdd & _ & Hdc).
  rewrite row_step_match.
  - destruct (assign_cells r (default_row d x)) as (-> & _). by rewrite Hc.
  - by rewrite Hc.
  - unfold rule_mask. by rewrite Hrx, Hdd, Hre, Hdc.
Qed.

(** C9, the code at the failing input.  A rule with a category and a blank
    subcategory cell (NaN after [read_csv]) writes the subcategory "nan" on
    the transaction it matches, not the category. *)
Theorem blank_subcategory_becomes_nan (h h' : Heap) (df out : nat)
    (d : DataFrame) (cols : list string) (r : Row) (p : string) (i : nat) (x : Row) :
  h !! df = Some d →
  rows d !! i = Some x →
  rule_cat r ≠ "" →
  r !! "subcategory" = Some (read_cell false false "") →
  r !! "regex" = Some (VRegex p) →
  re_search p (astype_str (cell "description" x)) = true →
  is_default (cell "category" x) = true →
  apply_rules df {| columns := cols; rows := [r] |} h = (Ok out, h') →
  ∃ d' x', h' !! out = Some d' ∧ rows d' !! i = Some x'
    ∧ cell "category" x' = VStr (rule_cat r)
    ∧ cell "subcategory" x' = VStr "nan".
Proof.
  intros Hl Hi Hc Hsub Hrx Hre Hx Hrun.
  destruct (apply_rules_row _ _ _ _ _ _ _ _ Hl Hrun Hi) as (d' & Hd' & Hrow).
  exists d'. eexists. split; [done|]. split; [done|].
  cbn [rows row_steps].
  assert (rule_sub r = "nan") as Hs.
  { unfold rule_sub, row_get. by rewrite Hsub. }
  destruct (default_row_cells d x) as (Hdd & _ & Hdc).
  rewrite row_step_match.
  - destruct (assign_cells r (default_row d x)) as (-> & -> & _). by rewrite Hs.
  - done.
  - unfold rule_mask. by rewrite Hrx, Hdd, Hre, Hdc.
Qed.











End RuleOutcomes.

(** * Runs on concrete files *)




(** The same runs, with the identifiers of the ledger written out: one line
    after the first run of the Nubank [main], two lines with the same
    identifier after the second; the Itaú [main] leaves one line. *)
Lemma second_run_outcome :
  ∃ t,
    Examples.ids_after (Nubank.main (H := Demo.lib) Examples.inbox) 1 = [t]
    ∧ Examples.ids_after (Nubank.main (H := Demo.lib) Examples.inbox) 2 = [t; t]
    ∧ Examples.ids_after (Itau.main (H := Demo.lib) Examples.inbox) 1 = [t]
    ∧ Examples.ids_after (Itau.main (H := Demo.lib) Examples.inbox) 2 = [t].
Proof. eexists. by vm_compute. Qed.


(** The same run, with the cells written out. *)
Lemma two_rules_outcome :
  head (Examples.categories_after Examples.two_rules Examples.ledger)
  = Some (VStr "Transport", VStr "Taxi", VStr "transfer").
Proof. by vm_compute. Qed.


Lemma uber_rules_load :
  Rules.load_rules_frame (H := Demo.lib) (read_csv [] Examples.uber_rules)
  = Ok (Examples.compiled Examples.uber_rules).
Proof. vm_compute. reflexivity. Qed.

Lemma apply_rules_frame_effect_witness :
  [Examples.ledger] !! 0%nat = Some Examples.ledger
  ∧ ltac:(let t := type of (apply_rules_frame_effect (H := Demo.lib) [Examples.ledger]
                              0%nat Examples.ledger (Examples.compiled Examples.uber_rules)
                              eq_refl) in exact t).
Proof.
  split; [reflexivity|].
  apply (apply_rules_frame_effect (H := Demo.lib)).
  reflexivity.
Defined.

Lemma categorized_rows_are_kept_witness :
  [Examples.ledger] !! 0%nat = Some Examples.ledger
  ∧ Examples.run_rules Examples.uber_rules Examples.ledger
    = (Ok 1%nat, (Examples.run_rules Examples.uber_rules Examples.ledger).2)
  ∧ ∃ d', (Examples.run_rules Examples.uber_rules Examples.ledger).2 !! 1%nat = Some d'
      ∧ ∀ i x,
          rows Examples.ledger !! i = Some x →
          has_column "category" Examples.ledger = true →
          Rules.is_default (cell "category" x) = false →
          ∃ x', rows d' !! i = Some x'
            ∧ (∀ c, c ∈ columns Examples.ledger → x' !! c = x !! c)
            ∧ Rules.is_default (cell "category" x') = false.
Proof.
  split; [reflexivity|]. split; [vm_compute; reflexivity|].
  apply (categorized_rows_are_kept (H := Demo.lib) [Examples.ledger] _ 0%nat 1%nat
           Examples.ledger (Examples.compiled Examples.uber_rules));
    [reflexivity|vm_compute; reflexivity].
Defined.

Lemma blank_category_rule_is_applied_witness :
  ∃ d' x',
    (Examples.run_rules Examples.blank_category_rules Examples.ledger).2 !! 1%nat = Some d'
    ∧ rows d' !! 0%nat = Some x'
    ∧ cell "category" x' = VStr "nan".
Proof.
  apply (blank_category_rule_is_applied (H := Demo.lib) [Examples.ledger] _ 0%nat 1%nat
           Examples.ledger (columns (Examples.compiled Examples.blank_category_rules))
           (Examples.first_rule Examples.blank_category_rules) "UBER" 0%nat
           Examples.uber_row);
    try (vm_compute; reflexivity).
Defined.

Lemma blank_subcategory_becomes_nan_witness :
  ∃ d' x',
    (Examples.run_rules Examples.uber_rules Examples.ledger).2 !! 1%nat = Some d'
    ∧ rows d' !! 0%nat = Some x'
    ∧ cell "category" x' = VStr "Transport"
    ∧ cell "subcategory" x' = VStr "nan".
Proof.
  apply (blank_subcategory_becomes_nan (H := Demo.lib) [Examples.ledger] _ 0%nat 1%nat
           Examples.ledger (columns (Examples.compiled Examples.uber_rules))
           (Examples.first_rule Examples.uber_rules) "UBER" 0%nat
           Examples.uber_row);
    try (vm_compute; reflexivity).
  vm_compute. discriminate.
Defined.
